(** * The view-state controller of the PDF viewer

    A shallow embedding of the [App] component of the React PDF viewer
    (the version with zoom controls and the thumbnail sidebar), and of the
    earlier pagination-only version of the same component.

    The component keeps three pieces of state ([numPages], [pageNumber],
    [scale]); its handlers are modelled as functions on a record of the
    three, the JSX of its render as functions from the record to what is
    shown, and the user as a list of events.

    Numbers.  Page numbers and page counts are integral JavaScript Numbers
    and are modelled by [Z] (exact below 2^53).  The zoom scale is a
    JavaScript Number that takes fractional values: it is modelled by an
    IEEE 754 binary64 value, [spec_float] with [prec = 53], [emax = 1024],
    and [+], [-], [Math.min], [Math.max], [<=], [>=] on it follow
    ECMAScript. *)

From Stdlib Require Import ZArith List Bool Lia.
From Stdlib Require Import SpecFloat PrimFloat FloatOps.
From Stdlib Require Import String DecimalString.
From Stdlib Require Finite.

Set Warnings "-inexact-float".
Import ListNotations.

Local Open Scope Z_scope.

(** ** The part of ECMAScript the component uses *)

Module JS.

(** A Number holding a fraction: binary64. *)
Definition number : Type := spec_float.

Definition prec : Z := 53.
Definition emax : Z := 1024.

Definition add (x y : number) : number := SFadd prec emax x y.
Definition sub (x y : number) : number := SFsub prec emax x y.

(** [x < y], [x <= y], [x >= y]: false as soon as one side is NaN. *)
Definition lt (x y : number) : bool := SFltb x y.
Definition le (x y : number) : bool := SFleb x y.
Definition ge (x y : number) : bool := SFleb y x.

(** [Math.min(x, y)]: NaN if either is NaN, -0 below +0, else the
    smaller. *)
Definition Math_min (x y : number) : number :=
  match x, y with
  | S754_nan, _ | _, S754_nan => S754_nan
  | S754_zero false, S754_zero true => y
  | _, _ => if lt y x then y else x
  end.

(** [Math.max(x, y)]: NaN if either is NaN, +0 above -0, else the
    larger. *)
Definition Math_max (x y : number) : number :=
  match x, y with
  | S754_nan, _ | _, S754_nan => S754_nan
  | S754_zero true, S754_zero false => y
  | _, _ => if lt x y then y else x
  end.

(** The literals of the source, as mantissa and exponent. *)
Definition lit_0_2 : number := S754_finite false 0x1999999999999A (-55).
Definition lit_0_5 : number := S754_finite false 0x10000000000000 (-53).
Definition lit_1_0 : number := S754_finite false 0x10000000000000 (-52).
Definition lit_3_0 : number := S754_finite false 0x18000000000000 (-51).

(** A well-formed binary64: the mantissa and exponent are those of its
    encoding. *)
Definition binary64 (x : number) : bool := valid_binary prec emax x.

(** The same Number, bit for bit (unlike [===], which tells NaN from
    itself and not -0 from +0). *)
Definition same (x y : number) : bool :=
  match x, y with
  | S754_zero s1, S754_zero s2 => Bool.eqb s1 s2
  | S754_infinity s1, S754_infinity s2 => Bool.eqb s1 s2
  | S754_nan, S754_nan => true
  | S754_finite s1 m1 e1, S754_finite s2 m2 e2 =>
      Bool.eqb s1 s2 && Pos.eqb m1 m2 && Z.eqb e1 e2
  | _, _ => false
  end.

(** [ToNumber] on a value that is [null] or an integral Number. *)
Definition ToNumber (v : option Z) : Z :=
  match v with
  | None => 0
  | Some n => n
  end.

(** [ToBoolean] on the same: [null] and [0] are falsy. *)
Definition truthy (v : option Z) : bool :=
  match v with
  | None => false
  | Some n => negb (n =? 0)
  end.

(** [Array.from(new Array(len), (el, index) => f(index))].
    [new Array(len)] throws a RangeError (here [None]) unless [len] is an
    integer in [0, 2^32). *)
Definition Array_from_new_Array {A : Type} (len : Z) (f : Z -> A)
  : option (list A) :=
  if (0 <=? len) && (len <? 2 ^ 32)
  then Some (map (fun index => f (Z.of_nat index)) (seq 0 (Z.to_nat len)))
  else None.

End JS.

(** ** Component state *)

Record ViewState : Type := mkViewState {
  numPages : option Z;      (* useState(null) *)
  pageNumber : Z;           (* useState(1) *)
  scale : JS.number         (* useState(1.0) *)
}.

Definition initial : ViewState :=
  {| numPages := None; pageNumber := 1; scale := JS.lit_1_0 |}.

(** The three setters, with a value or with an updater function. *)
Definition setNumPages (v : option Z) (st : ViewState) : ViewState :=
  {| numPages := v; pageNumber := pageNumber st; scale := scale st |}.

Definition setPageNumber (v : Z) (st : ViewState) : ViewState :=
  {| numPages := numPages st; pageNumber := v; scale := scale st |}.

Definition setPageNumber_with (f : Z -> Z) (st : ViewState) : ViewState :=
  setPageNumber (f (pageNumber st)) st.

Definition setScale_with (f : JS.number -> JS.number) (st : ViewState)
  : ViewState :=
  {| numPages := numPages st; pageNumber := pageNumber st;
     scale := f (scale st) |}.

(** ** Event handlers *)

(** [onDocumentLoadSuccess({ numPages })]; the handler reads [pageNumber]
    of the state it was rendered with. *)
Definition onDocumentLoadSuccess (n : Z) (st : ViewState) : ViewState :=
  let st' := setNumPages (Some n) st in
  if pageNumber st =? 1 then setPageNumber 1 st' else st'.

Definition goToPrevPage (st : ViewState) : ViewState :=
  setPageNumber_with (fun prevPageNumber => Z.max 1 (prevPageNumber - 1)) st.

(** [numPages] in the updater is that of the render the handler belongs
    to, which is the current one. *)
Definition goToNextPage (st : ViewState) : ViewState :=
  setPageNumber_with
    (fun prevPageNumber =>
       Z.min (JS.ToNumber (numPages st)) (prevPageNumber + 1)) st.

Definition goToPage (page : Z) (st : ViewState) : ViewState :=
  setPageNumber page st.

(** The updater [prevScale => Math.min(prevScale + 0.2, 3.0)]. *)
Definition zoomIn_updater (prevScale : JS.number) : JS.number :=
  JS.Math_min (JS.add prevScale JS.lit_0_2) JS.lit_3_0.

Definition zoomIn (st : ViewState) : ViewState :=
  setScale_with zoomIn_updater st.

(** The updater [prevScale => Math.max(prevScale - 0.2, 0.5)]. *)
Definition zoomOut_updater (prevScale : JS.number) : JS.number :=
  JS.Math_max (JS.sub prevScale JS.lit_0_2) JS.lit_0_5.

Definition zoomOut (st : ViewState) : ViewState :=
  setScale_with zoomOut_updater st.

(** The load handler of the two earlier versions of the component, which
    have one [Document] and no thumbnails: it resets the page on every
    load. *)
Module Paginated.
Definition onDocumentLoadSuccess (n : Z) (st : ViewState) : ViewState :=
  setPageNumber 1 (setNumPages (Some n) st).
End Paginated.

(** ** Render *)

(** What a conditional piece of JSX comes to. *)
Inductive rendered (A : Type) : Type :=
| Hidden                    (* [numPages && ...] with a falsy [numPages] *)
| Shown (a : A)
| Threw.                    (* RangeError out of [new Array] *)
Arguments Hidden {A}.
Arguments Shown {A} a.
Arguments Threw {A}.

(** One thumbnail: its page, and whether it carries the [active] class.
    Its click handler is [goToPage page]. *)
Definition thumbnail (st : ViewState) (index : Z) : Z * bool :=
  let page := index + 1 in
  let isActive := page =? pageNumber st in
  (page, isActive).

Definition thumbnail_sidebar (st : ViewState) : rendered (list (Z * bool)) :=
  if JS.truthy (numPages st)
  then match JS.Array_from_new_Array (JS.ToNumber (numPages st))
               (thumbnail st) with
       | Some thumbs => Shown thumbs
       | None => Threw
       end
  else Hidden.

(** The thumbnails on the page: none while the sidebar is not there. *)
Definition thumbnails_on_page (st : ViewState) : list (Z * bool) :=
  match thumbnail_sidebar st with
  | Shown thumbs => thumbs
  | _ => []
  end.

Record PageControls : Type := mkPageControls {
  previous_disabled : bool;
  page_label : Z * Z;            (* Page {pageNumber} of {numPages} *)
  next_disabled : bool
}.

Definition page_controls (st : ViewState) : rendered PageControls :=
  if JS.truthy (numPages st)
  then Shown {| previous_disabled := pageNumber st <=? 1;
                page_label := (pageNumber st, JS.ToNumber (numPages st));
                next_disabled := pageNumber st >=? JS.ToNumber (numPages st) |}
  else Hidden.

(** The two zoom buttons (the percentage between them is left out). *)
Record ZoomControls : Type := mkZoomControls {
  zoom_out_disabled : bool;
  zoom_in_disabled : bool
}.

Definition zoom_controls (st : ViewState) : ZoomControls :=
  {| zoom_out_disabled := JS.le (scale st) JS.lit_0_5;
     zoom_in_disabled := JS.ge (scale st) JS.lit_3_0 |}.

(** ** Events *)

Inductive Event : Type :=
| DocumentLoaded (n : Z)      (* a [Document] reports [onLoadSuccess] *)
| ClickPrevious
| ClickNext
| ClickThumbnail (page : Z)
| ClickZoomIn
| ClickZoomOut.

Definition dispatch (ev : Event) (st : ViewState) : ViewState :=
  match ev with
  | DocumentLoaded n => onDocumentLoadSuccess n st
  | ClickPrevious => goToPrevPage st
  | ClickNext => goToNextPage st
  | ClickThumbnail page => goToPage page st
  | ClickZoomIn => zoomIn st
  | ClickZoomOut => zoomOut st
  end.

(** Handlers run in the order the events arrive. *)
Definition run (evs : list Event) (st : ViewState) : ViewState :=
  fold_left (fun s ev => dispatch ev s) evs st.

(** Whether the render of [st] offers the user the control behind a click:
    the control is on the page and is not disabled.  A load event is not
    the user's and can always arrive. *)
Definition offered (st : ViewState) (ev : Event) : bool :=
  match ev with
  | DocumentLoaded _ => true
  | ClickPrevious =>
      match page_controls st with
      | Shown c => negb (previous_disabled c)
      | _ => false
      end
  | ClickNext =>
      match page_controls st with
      | Shown c => negb (next_disabled c)
      | _ => false
      end
  | ClickThumbnail page =>
      match thumbnail_sidebar st with
      | Shown thumbs => existsb (fun t => fst t =? page) thumbs
      | _ => false
      end
  | ClickZoomIn => negb (zoom_in_disabled (zoom_controls st))
  | ClickZoomOut => negb (zoom_out_disabled (zoom_controls st))
  end.

(** A session: every event is one the render before it offers. *)
Fixpoint session (evs : list Event) (st : ViewState) : bool :=
  match evs with
  | [] => true
  | ev :: evs' => offered st ev && session evs' (dispatch ev st)
  end.

Definition is_load (ev : Event) : bool :=
  match ev with
  | DocumentLoaded _ => true
  | _ => false
  end.

(** A navigation action with [T] pages: Previous, Next, or a click on one
    of the thumbnails 1..T. *)
Definition navigation (T : Z) (ev : Event) : Prop :=
  match ev with
  | ClickPrevious | ClickNext => True
  | ClickThumbnail p => 1 <= p <= T
  | _ => False
  end.

(** The pages 1, 2, ..., T in ascending order. *)
Definition pages (T : Z) : list Z := map Z.of_nat (seq 1 (Z.to_nat T)).

(** ** Zoom: the notions of the statements *)

Definition zoom_click (ev : Event) : Prop :=
  ev = ClickZoomIn \/ ev = ClickZoomOut.

(** A scale within the bounds of the zoom buttons, 0.5 <= s <= 3.0. *)
Definition in_range (s : JS.number) : bool :=
  JS.le JS.lit_0_5 s && JS.le s JS.lit_3_0.

(** [zoomIn] is clamped when [Math.min] takes the cap instead of the sum,
    [zoomOut] when [Math.max] takes the floor instead of the difference. *)
Definition zoomIn_clamped (s : JS.number) : bool :=
  JS.lt JS.lit_3_0 (JS.add s JS.lit_0_2).

Definition zoomOut_clamped (s : JS.number) : bool :=
  JS.lt (JS.sub s JS.lit_0_2) JS.lit_0_5.

(** The value of a positive binary64 counted in units of 2^-55 (the last
    place of the literal 0.2); exact for every exponent from -55 up. *)
Definition units (x : JS.number) : Z :=
  match x with
  | S754_finite false m e => Zpos m * 2 ^ (e + 55)
  | _ => 0
  end.

(** A positive normal binary64 of exponent at least -55 (a value of 1/8 or
    more). *)
Definition normal (x : JS.number) : bool :=
  match x with
  | S754_finite false m e => (Zpos (digits2_pos m) =? 53) && (-55 <=? e)
  | _ => false
  end.

(** What [n] right shifts of [M], with [P = 2^n], have left in a
    [shr_record]: the quotient, and in the two flags how the remainder
    compares with half of [P]. *)
Definition shr_inv (M P : Z) (mrs : shr_record) : Prop :=
  0 <= shr_m mrs /\
  exists rem, M = shr_m mrs * P + rem /\ 0 <= rem < P /\
              shr_r mrs = (P <=? 2 * rem) /\
              shr_s mrs = negb (rem =? 0) && negb (2 * rem =? P).

(** The scales that clicks on the zoom buttons lead to from 1.0. *)
Definition zoom_scales : list JS.number :=
  [ S754_finite false 0x10000000000000 (-53);   (* 0.5 *)
    S754_finite false 0x13333333333330 (-53);   (* 0.5999999999999996 *)
    S754_finite false 0x13333333333334 (-53);   (* 0.6000000000000001 *)
    S754_finite false 0x16666666666666 (-53);   (* 0.7 *)
    S754_finite false 0x19999999999996 (-53);   (* 0.7999999999999996 *)
    S754_finite false 0x1999999999999A (-53);   (* 0.8 *)
    S754_finite false 0x1CCCCCCCCCCCCC (-53);   (* 0.8999999999999999 *)
    S754_finite false 0x1FFFFFFFFFFFFC (-53);   (* 0.9999999999999996 *)
    S754_finite false 0x10000000000000 (-52);   (* 1.0 *)
    S754_finite false 0x11999999999999 (-52);   (* 1.0999999999999999 *)
    S754_finite false 0x13333333333331 (-52);   (* 1.1999999999999995 *)
    S754_finite false 0x13333333333333 (-52);   (* 1.2 *)
    S754_finite false 0x14CCCCCCCCCCCC (-52);   (* 1.2999999999999998 *)
    S754_finite false 0x16666666666664 (-52);   (* 1.3999999999999995 *)
    S754_finite false 0x16666666666666 (-52);   (* 1.4 *)
    S754_finite false 0x17FFFFFFFFFFFF (-52);   (* 1.4999999999999998 *)
    S754_finite false 0x19999999999997 (-52);   (* 1.5999999999999994 *)
    S754_finite false 0x19999999999999 (-52);   (* 1.5999999999999999 *)
    S754_finite false 0x1B333333333332 (-52);   (* 1.6999999999999997 *)
    S754_finite false 0x1CCCCCCCCCCCCA (-52);   (* 1.7999999999999994 *)
    S754_finite false 0x1CCCCCCCCCCCCC (-52);   (* 1.7999999999999998 *)
    S754_finite false 0x1E666666666665 (-52);   (* 1.8999999999999997 *)
    S754_finite false 0x1FFFFFFFFFFFFD (-52);   (* 1.9999999999999993 *)
    S754_finite false 0x1FFFFFFFFFFFFF (-52);   (* 1.9999999999999998 *)
    S754_finite false 0x10CCCCCCCCCCCC (-51);   (* 2.0999999999999996 *)
    S754_finite false 0x11999999999998 (-51);   (* 2.1999999999999993 *)
    S754_finite false 0x11999999999999 (-51);   (* 2.1999999999999997 *)
    S754_finite false 0x12666666666666 (-51);   (* 2.3 *)
    S754_finite false 0x13333333333332 (-51);   (* 2.3999999999999995 *)
    S754_finite false 0x13333333333333 (-51);   (* 2.4 *)
    S754_finite false 0x14000000000000 (-51);   (* 2.5 *)
    S754_finite false 0x14CCCCCCCCCCCC (-51);   (* 2.5999999999999996 *)
    S754_finite false 0x14CCCCCCCCCCCD (-51);   (* 2.6 *)
    S754_finite false 0x1599999999999A (-51);   (* 2.7 *)
    S754_finite false 0x16666666666666 (-51);   (* 2.8 *)
    S754_finite false 0x16666666666667 (-51);   (* 2.8000000000000003 *)
    S754_finite false 0x17333333333334 (-51);   (* 2.9000000000000004 *)
    S754_finite false 0x18000000000000 (-51) ]. (* 3.0 *)

(** For each of [zoom_scales], in the same order, clicks that lead to it
    from 1.0. *)
Definition zoom_paths : list (list Event) :=
  [
    repeat ClickZoomOut 3;   (* 0.5 *)
    repeat ClickZoomIn 10 ++ repeat ClickZoomOut 12;   (* 0.5999999999999996 *)
    repeat ClickZoomOut 2;   (* 0.6000000000000001 *)
    repeat ClickZoomOut 3 ++ repeat ClickZoomIn 1;   (* 0.7 *)
    repeat ClickZoomIn 10 ++ repeat ClickZoomOut 11;   (* 0.7999999999999996 *)
    repeat ClickZoomOut 1;   (* 0.8 *)
    repeat ClickZoomOut 3 ++ repeat ClickZoomIn 2;   (* 0.8999999999999999 *)
    repeat ClickZoomIn 10 ++ repeat ClickZoomOut 10;   (* 0.9999999999999996 *)
    [];   (* 1.0 *)
    repeat ClickZoomOut 3 ++ repeat ClickZoomIn 3;   (* 1.0999999999999999 *)
    repeat ClickZoomIn 10 ++ repeat ClickZoomOut 9;   (* 1.1999999999999995 *)
    repeat ClickZoomIn 1;   (* 1.2 *)
    repeat ClickZoomOut 3 ++ repeat ClickZoomIn 4;   (* 1.2999999999999998 *)
    repeat ClickZoomIn 10 ++ repeat ClickZoomOut 8;   (* 1.3999999999999995 *)
    repeat ClickZoomIn 2;   (* 1.4 *)
    repeat ClickZoomOut 3 ++ repeat ClickZoomIn 5;   (* 1.4999999999999998 *)
    repeat ClickZoomIn 10 ++ repeat ClickZoomOut 7;   (* 1.5999999999999994 *)
    repeat ClickZoomIn 3;   (* 1.5999999999999999 *)
    repeat ClickZoomOut 3 ++ repeat ClickZoomIn 6;   (* 1.6999999999999997 *)
    repeat ClickZoomIn 10 ++ repeat ClickZoomOut 6;   (* 1.7999999999999994 *)
    repeat ClickZoomIn 4;   (* 1.7999999999999998 *)
    repeat ClickZoomOut 3 ++ repeat ClickZoomIn 7;   (* 1.8999999999999997 *)
    repeat ClickZoomIn 10 ++ repeat ClickZoomOut 5;   (* 1.9999999999999993 *)
    repeat ClickZoomIn 5;   (* 1.9999999999999998 *)
    repeat ClickZoomOut 3 ++ repeat ClickZoomIn 8;   (* 2.0999999999999996 *)
    repeat ClickZoomIn 10 ++ repeat ClickZoomOut 4;   (* 2.1999999999999993 *)
    repeat ClickZoomIn 6;   (* 2.1999999999999997 *)
    repeat ClickZoomOut 3 ++ repeat ClickZoomIn 9;   (* 2.3 *)
    repeat ClickZoomIn 10 ++ repeat ClickZoomOut 3;   (* 2.3999999999999995 *)
    repeat ClickZoomIn 7;   (* 2.4 *)
    repeat ClickZoomOut 3 ++ repeat ClickZoomIn 10;   (* 2.5 *)
    repeat ClickZoomIn 10 ++ repeat ClickZoomOut 2;   (* 2.5999999999999996 *)
    repeat ClickZoomIn 8;   (* 2.6 *)
    repeat ClickZoomOut 3 ++ repeat ClickZoomIn 11;   (* 2.7 *)
    repeat ClickZoomIn 10 ++ repeat ClickZoomOut 1;   (* 2.8 *)
    repeat ClickZoomIn 9;   (* 2.8000000000000003 *)
    repeat ClickZoomOut 3 ++ repeat ClickZoomIn 12;   (* 2.9000000000000004 *)
    repeat ClickZoomIn 10   (* 3.0 *)
  ].

(** Whether a scale is one of a list. *)
Definition scale_in (l : list JS.number) (s : JS.number) : bool :=
  existsb (JS.same s) l.

(** Three more binary64 values: 0.6, 0.8 and 2.8. *)
Definition num_0_6 : JS.number := S754_finite false 0x13333333333333 (-53).
Definition num_0_8 : JS.number := S754_finite false 0x1999999999999A (-53).
Definition num_2_8 : JS.number := S754_finite false 0x16666666666666 (-51).
(** And 0.6000000000000001, the binary64 next above 0.6. *)
Definition num_0_6_up : JS.number :=
  S754_finite false 0x13333333333334 (-53).

(** ** The rest of the component *)

(** *** The percentage between the zoom buttons *)

Module JSFormat.

(** [x * y] on Numbers. *)
Definition mul (x y : JS.number) : JS.number := SFmul JS.prec JS.emax x y.

(** The literal [100]. *)
Definition lit_100 : JS.number := S754_finite false 0x19000000000000 (-46).

(** For the positive value [m * 2^e], the integer [n] with [n - x] closest
    to zero, the larger one if there are two. *)
Definition nearest_integer (m : positive) (e : Z) : Z :=
  match e with
  | Zneg k => (2 * Zpos m + 2 ^ Zpos k) / (2 * 2 ^ Zpos k)
  | _ => Zpos m * 2 ^ e
  end.

(** Whether [m * 2^e >= 10^21]. *)
Definition at_least_1e21 (m : positive) (e : Z) : bool :=
  match e with
  | Zneg k => 10 ^ 21 * 2 ^ Zpos k <=? Zpos m
  | _ => 10 ^ 21 <=? Zpos m * 2 ^ e
  end.

(** The decimal digits of a natural number, ["0"] for zero. *)
Definition decimal (n : Z) : string :=
  NilZero.string_of_uint (N.to_uint (Z.to_N n)).

(** [x.toFixed(0)].  From 10^21 up the result is that of [String(x)], which
    is not modelled: [None] there. *)
Definition toFixed_0 (x : JS.number) : option string :=
  match x with
  | S754_nan => Some "NaN"%string
  | S754_infinity false => Some "Infinity"%string
  | S754_infinity true => Some "-Infinity"%string
  | S754_zero _ => Some "0"%string
  | S754_finite s m e =>
      if at_least_1e21 m e then None
      else Some (String.append (if s then "-" else "")
                               (decimal (nearest_integer m e)))
  end.

End JSFormat.

(** The text of [<span>{(scale * 100).toFixed(0)}%</span>]. *)
Definition zoom_percentage (st : ViewState) : option string :=
  option_map (fun digits => String.append digits "%")
             (JSFormat.toFixed_0 (JSFormat.mul (scale st) JSFormat.lit_100)).

(** The text that shows [p] percent. *)
Definition percent_text (p : Z) : string :=
  String.append (JSFormat.decimal p) "%".

(** *** Sessions in which every load reports the same page count *)

Definition loads_report (T : Z) (ev : Event) : Prop :=
  match ev with
  | DocumentLoaded n => n = T
  | _ => True
  end.

(** Nothing loaded yet and the page at 1, or [T] pages and the page among
    them. *)
Definition page_in_view (T : Z) (st : ViewState) : Prop :=
  (numPages st = None /\ pageNumber st = 1) \/
  (numPages st = Some T /\ 1 <= pageNumber st <= T).

(** The thumbnails that carry the [active] class. *)
Definition active_thumbnails (st : ViewState) : list (Z * bool) :=
  filter snd (thumbnails_on_page st).

(** *** The pagination-only versions of the component *)

Module PaginatedApp.

Record State : Type := mkState {
  numPages : option Z;      (* useState(null) *)
  pageNumber : Z            (* useState(1) *)
}.

Definition initial : State := {| numPages := None; pageNumber := 1 |}.

Definition onDocumentLoadSuccess (n : Z) (st : State) : State :=
  {| numPages := Some n; pageNumber := 1 |}.

Definition goToPrevPage (st : State) : State :=
  {| numPages := numPages st;
     pageNumber := Z.max 1 (pageNumber st - 1) |}.

Definition goToNextPage (st : State) : State :=
  {| numPages := numPages st;
     pageNumber := Z.min (JS.ToNumber (numPages st)) (pageNumber st + 1) |}.

Definition page_controls (st : State) : rendered PageControls :=
  if JS.truthy (numPages st)
  then Shown {| previous_disabled := pageNumber st <=? 1;
                page_label := (pageNumber st, JS.ToNumber (numPages st));
                next_disabled := pageNumber st >=? JS.ToNumber (numPages st) |}
  else Hidden.

Inductive Event : Type :=
| DocumentLoaded (n : Z)
| ClickPrevious
| ClickNext.

Definition dispatch (ev : Event) (st : State) : State :=
  match ev with
  | DocumentLoaded n => onDocumentLoadSuccess n st
  | ClickPrevious => goToPrevPage st
  | ClickNext => goToNextPage st
  end.

Definition run (evs : list Event) (st : State) : State :=
  fold_left (fun s ev => dispatch ev s) evs st.

Definition offered (st : State) (ev : Event) : bool :=
  match ev with
  | DocumentLoaded _ => true
  | ClickPrevious =>
      match page_controls st with
      | Shown c => negb (previous_disabled c)
      | _ => false
      end
  | ClickNext =>
      match page_controls st with
      | Shown c => negb (next_disabled c)
      | _ => false
      end
  end.

Fixpoint session (evs : list Event) (st : State) : bool :=
  match evs with
  | [] => true
  | ev :: evs' => offered st ev && session evs' (dispatch ev st)
  end.

(** A load of at least one page. *)
Definition loads_a_page (ev : Event) : Prop :=
  match ev with
  | DocumentLoaded n => 1 <= n
  | _ => True
  end.

End PaginatedApp.

(** ** The literals *)

(** The literals are the binary64 values that the decimal notation
    denotes. *)
Lemma literals_binary64 :
  Prim2SF 0.2%float = JS.lit_0_2 /\ Prim2SF 0.5%float = JS.lit_0_5 /\
  Prim2SF 1.0%float = JS.lit_1_0 /\ Prim2SF 3.0%float = JS.lit_3_0 /\
  Prim2SF 0.6%float = num_0_6 /\ Prim2SF 0.8%float = num_0_8 /\
  Prim2SF 2.8%float = num_2_8 /\
  Prim2SF 0.6000000000000001%float = num_0_6_up.
Proof. repeat split; vm_compute; reflexivity. Qed.

(** ** Navigation *)

(** Before any load, all that the render offers are the zoom buttons. *)
Lemma offered_unloaded :
  forall st ev, JS.truthy (numPages st) = false -> is_load ev = false ->
    offered st ev = true -> ev = ClickZoomIn \/ ev = ClickZoomOut.
Proof.
  intros st ev Hn Hl Ho. destruct ev; simpl in *; try discriminate; auto;
    unfold page_controls, thumbnail_sidebar in Ho; rewrite Hn in Ho;
    discriminate.
Qed.

Lemma session_unloaded :
  forall evs st, numPages st = None -> session evs st = true ->
    existsb is_load evs = false ->
    numPages (run evs st) = None /\ pageNumber (run evs st) = pageNumber st.
Proof.
  induction evs as [|ev evs IH]; intros st Hn Hs Hl; simpl in *; auto.
  apply andb_prop in Hs as [Ho Hs]. apply orb_false_elim in Hl as [Hl Hls].
  assert (Ht : JS.truthy (numPages st) = false) by (rewrite Hn; reflexivity).
  destruct (offered_unloaded st ev Ht Hl Ho) as [-> | ->].
  - exact (IH (zoomIn st) Hn Hs Hls).
  - exact (IH (zoomOut st) Hn Hs Hls).
Qed.

(** C1: [onDocumentLoadSuccess] stores the page count it is given on every
    call.  The first load of a session leaves the page at 1; no call moves
    the page, so a later load (as from the thumbnail [Document]) does not
    bring it back to 1: with 5 pages and the page at 3, a second load of 5
    leaves it at 3. *)
Theorem onDocumentLoadSuccess_first_load_only :
  forall (before : list Event) (n : Z),
    session before initial = true -> existsb is_load before = false ->
    let first := onDocumentLoadSuccess n (run before initial) in
    numPages first = Some n /\ pageNumber first = 1 /\
    (forall m st,
        numPages (onDocumentLoadSuccess m st) = Some m /\
        pageNumber (onDocumentLoadSuccess m st) = pageNumber st /\
        scale (onDocumentLoadSuccess m st) = scale st) /\
    (forall sc,
        onDocumentLoadSuccess 5
          {| numPages := Some 5; pageNumber := 3; scale := sc |}
        = {| numPages := Some 5; pageNumber := 3; scale := sc |}).
Proof.
  intros before n Hs Hl first.
  assert (Hany : forall m st,
             numPages (onDocumentLoadSuccess m st) = Some m /\
             pageNumber (onDocumentLoadSuccess m st) = pageNumber st /\
             scale (onDocumentLoadSuccess m st) = scale st).
  { intros m st. unfold onDocumentLoadSuccess.
    destruct (pageNumber st =? 1) eqn:E; simpl; auto.
    apply Z.eqb_eq in E. auto. }
  destruct (session_unloaded before initial eq_refl Hs Hl) as [_ Hp].
  destruct (Hany n (run before initial)) as (H1 & H2 & _).
  repeat split; try apply Hany; auto.
  subst first. rewrite H2, Hp. reflexivity.
Qed.

Lemma onDocumentLoadSuccess_first_load_only_witness :
  let first := onDocumentLoadSuccess 5 (run [ClickZoomIn; ClickZoomOut] initial) in
  numPages first = Some 5 /\ pageNumber first = 1.
Proof.
  destruct (onDocumentLoadSuccess_first_load_only [ClickZoomIn; ClickZoomOut] 5)
    as (H1 & H2 & _); [vm_compute; reflexivity | reflexivity | ].
  split; [exact H1 | exact H2].
Defined.

(** The earlier versions reset the page on every load. *)
Lemma Paginated_onDocumentLoadSuccess_resets :
  forall n st, pageNumber (Paginated.onDocumentLoadSuccess n st) = 1.
Proof. reflexivity. Qed.

Lemma navigation_step :
  forall T ev st, numPages st = Some T -> 1 <= pageNumber st <= T ->
    navigation T ev ->
    numPages (dispatch ev st) = Some T /\ 1 <= pageNumber (dispatch ev st) <= T.
Proof.
  intros T ev st Hn Hp Hnav.
  destruct ev; simpl in *; try contradiction; rewrite ?Hn; simpl; split;
    auto; lia.
Qed.

(** C2: with the page count known and the page in range, the page stays in
    [1, totalPages] through every sequence of navigation actions. *)
Theorem navigation_keeps_page_in_range :
  forall T evs st, numPages st = Some T -> 1 <= pageNumber st <= T ->
    Forall (navigation T) evs ->
    numPages (run evs st) = Some T /\ 1 <= pageNumber (run evs st) <= T.
Proof.
  intros T evs. induction evs as [|ev evs IH]; intros st Hn Hp Hall; simpl.
  - auto.
  - inversion Hall as [|? ? Hev Hrest]; subst.
    destruct (navigation_step T ev st Hn Hp Hev) as [Hn' Hp'].
    exact (IH _ Hn' Hp' Hrest).
Qed.

Lemma navigation_keeps_page_in_range_witness :
  let st := run [ClickNext; ClickThumbnail 5; ClickNext; ClickPrevious]
                (onDocumentLoadSuccess 5 initial) in
  numPages st = Some 5 /\ 1 <= pageNumber st <= 5.
Proof.
  apply (navigation_keeps_page_in_range 5
           [ClickNext; ClickThumbnail 5; ClickNext; ClickPrevious]
           (onDocumentLoadSuccess 5 initial)).
  - reflexivity.
  - simpl. lia.
  - repeat constructor; simpl; lia.
Defined.

Lemma numPages_iter_goToNextPage :
  forall n st, numPages (Nat.iter n goToNextPage st) = numPages st.
Proof. induction n as [|n IH]; intros st; simpl; auto. Qed.

Lemma pageNumber_goToNextPage :
  forall st, pageNumber (goToNextPage st)
             = Z.min (JS.ToNumber (numPages st)) (pageNumber st + 1).
Proof. reflexivity. Qed.

Lemma pageNumber_goToPrevPage :
  forall st, pageNumber (goToPrevPage st) = Z.max 1 (pageNumber st - 1).
Proof. reflexivity. Qed.

Lemma pageNumber_iter_goToNextPage :
  forall T st, numPages st = Some T -> forall n,
    pageNumber (Nat.iter (S n) goToNextPage st)
    = Z.min T (pageNumber st + Z.of_nat (S n)).
Proof.
  intros T st Hn. induction n as [|n IH].
  - simpl Nat.iter. rewrite pageNumber_goToNextPage, Hn. reflexivity.
  - change (Nat.iter (S (S n)) goToNextPage st)
      with (goToNextPage (Nat.iter (S n) goToNextPage st)).
    rewrite pageNumber_goToNextPage, numPages_iter_goToNextPage, Hn, IH.
    simpl JS.ToNumber. lia.
Qed.

Lemma pageNumber_iter_goToPrevPage :
  forall st n,
    pageNumber (Nat.iter (S n) goToPrevPage st)
    = Z.max 1 (pageNumber st - Z.of_nat (S n)).
Proof.
  intros st. induction n as [|n IH].
  - simpl Nat.iter. rewrite pageNumber_goToPrevPage. reflexivity.
  - change (Nat.iter (S (S n)) goToPrevPage st)
      with (goToPrevPage (Nat.iter (S n) goToPrevPage st)).
    rewrite pageNumber_goToPrevPage, IH. lia.
Qed.

(** C5: one call of [goToNextPage] computes min(totalPages, page + 1) and
    does nothing at the last page; [n >= 1] calls from page 1 end at
    min(totalPages, 1 + n). *)
Theorem goToNextPage_iterated :
  forall (T : Z) (n : nat) (st : ViewState),
    numPages st = Some T -> (1 <= n)%nat ->
    pageNumber (goToNextPage st) = Z.min T (pageNumber st + 1) /\
    (pageNumber st = T -> goToNextPage st = st) /\
    (pageNumber st = 1 ->
     pageNumber (Nat.iter n goToNextPage st) = Z.min T (1 + Z.of_nat n)).
Proof.
  intros T n st Hn Hpos. split; [|split].
  - rewrite pageNumber_goToNextPage, Hn. reflexivity.
  - intros Hp. destruct st as [np p sc]. simpl in *. subst.
    unfold goToNextPage, setPageNumber_with, setPageNumber. simpl.
    f_equal. lia.
  - intros Hp. destruct n as [|n]; [lia|].
    rewrite (pageNumber_iter_goToNextPage T st Hn), Hp. reflexivity.
Qed.

Lemma goToNextPage_iterated_witness :
  let st := {| numPages := Some 4; pageNumber := 1; scale := JS.lit_1_0 |} in
  let last := {| numPages := Some 4; pageNumber := 4; scale := JS.lit_1_0 |} in
  pageNumber (Nat.iter 7 goToNextPage st) = Z.min 4 (1 + 7) /\
  goToNextPage last = last.
Proof.
  intros st last.
  destruct (goToNextPage_iterated 4 7 st) as (_ & _ & H);
    [reflexivity | lia | ].
  destruct (goToNextPage_iterated 4 1 last) as (_ & Hlast & _);
    [reflexivity | lia | ].
  split; [apply H | apply Hlast]; reflexivity.
Defined.

(** C6: one call of [goToPrevPage] computes max(1, page - 1) and does
    nothing at page 1; [n >= 1] calls from page [k >= 1] end at
    max(1, k - n). *)
Theorem goToPrevPage_iterated :
  forall (k : Z) (n : nat) (st : ViewState),
    pageNumber st = k -> 1 <= k -> (1 <= n)%nat ->
    pageNumber (goToPrevPage st) = Z.max 1 (k - 1) /\
    (k = 1 -> goToPrevPage st = st /\
              goToPrevPage (goToPrevPage st) = goToPrevPage st) /\
    pageNumber (Nat.iter n goToPrevPage st) = Z.max 1 (k - Z.of_nat n).
Proof.
  intros k n st Hp Hk Hpos. split; [|split].
  - rewrite pageNumber_goToPrevPage, Hp. reflexivity.
  - intros ->. destruct st as [np p sc]. simpl in Hp. subst p.
    split; reflexivity.
  - destruct n as [|n]; [lia|].
    rewrite pageNumber_iter_goToPrevPage, Hp. reflexivity.
Qed.

Lemma goToPrevPage_iterated_witness :
  let st := {| numPages := Some 9; pageNumber := 6; scale := JS.lit_1_0 |} in
  let first := {| numPages := Some 9; pageNumber := 1; scale := JS.lit_1_0 |} in
  pageNumber (goToPrevPage st) = Z.max 1 (6 - 1) /\
  pageNumber (Nat.iter 8 goToPrevPage st) = Z.max 1 (6 - 8) /\
  goToPrevPage first = first.
Proof.
  intros st first.
  destruct (goToPrevPage_iterated 6 8 st) as (H1 & _ & H3);
    [reflexivity | lia | lia | ].
  destruct (goToPrevPage_iterated 1 1 first) as (_ & Hfirst & _);
    [reflexivity | lia | lia | ].
  split; [exact H1 | split; [exact H3 | apply Hfirst; reflexivity]].
Defined.

(** ** Thumbnails *)

Lemma Array_from_new_Array_pages :
  forall (A : Type) (T : Z) (f : Z -> A), 0 <= T < 2 ^ 32 ->
    JS.Array_from_new_Array T f = Some (map (fun p => f (p - 1)) (pages T)).
Proof.
  intros A T f HT. unfold JS.Array_from_new_Array, pages.
  replace ((0 <=? T) && (T <? 2 ^ 32)) with true
    by (symmetry; apply andb_true_intro; split;
        [apply Z.leb_le | apply Z.ltb_lt]; lia).
  rewrite <- seq_shift, !map_map. f_equal. apply map_ext. intros i.
  f_equal. lia.
Qed.

Lemma thumbnail_sidebar_loaded :
  forall st T, numPages st = Some T -> 1 <= T < 2 ^ 32 ->
    thumbnail_sidebar st
    = Shown (map (fun p => (p, p =? pageNumber st)) (pages T)).
Proof.
  intros st T Hn HT. unfold thumbnail_sidebar. rewrite Hn. simpl.
  replace (T =? 0) with false by (symmetry; apply Z.eqb_neq; lia). simpl.
  rewrite Array_from_new_Array_pages by lia. f_equal. apply map_ext.
  intros p. unfold thumbnail. replace (p - 1 + 1) with p by lia. reflexivity.
Qed.

Lemma thumbnail_offered_in_range :
  forall st p, offered st (ClickThumbnail p) = true ->
    exists T, numPages st = Some T /\ 1 <= p <= T.
Proof.
  intros st p H. simpl in H. unfold thumbnail_sidebar in H.
  destruct (numPages st) as [T|] eqn:Hn; [|discriminate]. simpl in H.
  destruct (T =? 0) eqn:E0; [discriminate|]. simpl in H.
  unfold JS.Array_from_new_Array in H.
  destruct ((0 <=? T) && (T <? 2 ^ 32)) eqn:Eb; [|discriminate].
  apply existsb_exists in H as (t & Hin & Ht).
  apply in_map_iff in Hin as (i & <- & Hi). apply in_seq in Hi.
  simpl in Ht. apply Z.eqb_eq in Ht. exists T. split; [reflexivity | lia].
Qed.

(** C7: [goToPage p] stores [p] as it is, whatever [p]; nothing is checked
    or clamped (page 0 or page 6 of 5 are stored too).  Staying in range is
    left to the caller: the thumbnails that the render offers are those of
    pages 1..totalPages. *)
Theorem goToPage_sets_page_unchecked :
  (forall p st, goToPage p st
                = {| numPages := numPages st; pageNumber := p;
                     scale := scale st |}) /\
  (forall sc, let st := {| numPages := Some 5; pageNumber := 2; scale := sc |} in
     pageNumber (goToPage 0 st) = 0 /\ pageNumber (goToPage 6 st) = 6) /\
  (forall st p, offered st (ClickThumbnail p) = true ->
     exists T, numPages st = Some T /\ 1 <= p <= T).
Proof.
  split; [reflexivity | split; [intros; split; reflexivity|]].
  exact thumbnail_offered_in_range.
Qed.

Lemma goToPage_sets_page_unchecked_witness :
  exists T, numPages (onDocumentLoadSuccess 5 initial) = Some T /\ 1 <= 4 <= T.
Proof.
  apply (proj2 (proj2 goToPage_sets_page_unchecked)
           (onDocumentLoadSuccess 5 initial) 4).
  reflexivity.
Defined.

(** C8: with [T] pages and the page at [cur], the thumbnails are, in
    ascending page order, the pairs (p, p = cur) for p = 1..T; with 3 pages
    and the page at 2 they are (1, false), (2, true), (3, false). *)
Theorem thumbnail_sidebar_projection :
  forall (T cur : Z) (sc : JS.number), 0 <= T < 2 ^ 32 ->
    let st := {| numPages := Some T; pageNumber := cur; scale := sc |} in
    thumbnails_on_page st = map (fun p => (p, p =? cur)) (pages T) /\
    (1 <= T ->
     thumbnail_sidebar st = Shown (map (fun p => (p, p =? cur)) (pages T))) /\
    thumbnails_on_page {| numPages := Some 3; pageNumber := 2; scale := sc |}
    = [(1, false); (2, true); (3, false)].
Proof.
  intros T cur sc HT st.
  assert (H1 : 1 <= T ->
               thumbnail_sidebar st
               = Shown (map (fun p => (p, p =? cur)) (pages T))).
  { intros H. exact (thumbnail_sidebar_loaded st T eq_refl (conj H (proj2 HT))). }
  split; [|split; [exact H1 | reflexivity]].
  destruct (Z.eq_dec T 0) as [-> | Hnz].
  - reflexivity.
  - unfold thumbnails_on_page. rewrite H1 by lia. reflexivity.
Qed.

Lemma thumbnail_sidebar_projection_witness :
  thumbnails_on_page
    {| numPages := Some 4; pageNumber := 4; scale := JS.lit_1_0 |}
  = [(1, false); (2, false); (3, false); (4, true)].
Proof.
  destruct (thumbnail_sidebar_projection 4 4 JS.lit_1_0) as [H _]; [lia|].
  exact H.
Defined.

(** ** What each handler touches *)

(** C9: the three navigation handlers change [pageNumber] alone, the two
    zoom handlers change [scale] alone; an event that moves the page is a
    navigation click and an event that changes the scale is a zoom click
    (the load handler changes neither). *)
Theorem handlers_touch_their_own_field :
  forall st : ViewState,
    (numPages (goToPrevPage st) = numPages st /\
     scale (goToPrevPage st) = scale st) /\
    (numPages (goToNextPage st) = numPages st /\
     scale (goToNextPage st) = scale st) /\
    (forall p, numPages (goToPage p st) = numPages st /\
               scale (goToPage p st) = scale st) /\
    (numPages (zoomIn st) = numPages st /\
     pageNumber (zoomIn st) = pageNumber st) /\
    (numPages (zoomOut st) = numPages st /\
     pageNumber (zoomOut st) = pageNumber st) /\
    (forall ev, pageNumber (dispatch ev st) <> pageNumber st ->
       ev = ClickPrevious \/ ev = ClickNext \/
       exists p, ev = ClickThumbnail p) /\
    (forall ev, scale (dispatch ev st) <> scale st ->
       ev = ClickZoomIn \/ ev = ClickZoomOut).
Proof.
  intros st. repeat split.
  - intros [n| | |p| |] H; eauto.
    + exfalso. apply H. simpl. unfold onDocumentLoadSuccess.
      destruct (pageNumber st =? 1) eqn:E; simpl; auto.
      apply Z.eqb_eq in E. auto.
    + exfalso. apply H. reflexivity.
    + exfalso. apply H. reflexivity.
  - intros [n| | |p| |] H; auto; exfalso; apply H; try reflexivity.
    simpl. unfold onDocumentLoadSuccess.
    destruct (pageNumber st =? 1); reflexivity.
Qed.

Lemma handlers_touch_their_own_field_witness :
  let st := {| numPages := Some 5; pageNumber := 1; scale := JS.lit_1_0 |} in
  (ClickNext = ClickPrevious \/ ClickNext = ClickNext \/
   exists p, ClickNext = ClickThumbnail p) /\
  (ClickZoomIn = ClickZoomIn \/ ClickZoomIn = ClickZoomOut).
Proof.
  intros st.
  destruct (handlers_touch_their_own_field st)
    as (_ & _ & _ & _ & _ & Hpage & Hscale).
  split.
  - apply (Hpage ClickNext). vm_compute. discriminate.
  - apply (Hscale ClickZoomIn). vm_compute. discriminate.
Defined.

(** C10: while [numPages] is still [null], [goToNextPage] takes any page
    [k >= 1] to 0, below the first page; the render keeps the Next button
    off the page until a load has stored a page count. *)
Theorem goToNextPage_before_load :
  forall st : ViewState, numPages st = None -> 1 <= pageNumber st ->
    pageNumber (goToNextPage st) = 0 /\
    ~ 1 <= pageNumber (goToNextPage st) /\
    offered st ClickNext = false /\
    (forall st', offered st' ClickNext = true ->
       exists T, numPages st' = Some T /\ T <> 0 /\ pageNumber st' < T) /\
    (forall st' T, numPages st' = Some T -> 1 <= T -> 1 <= pageNumber st' ->
       1 <= pageNumber (goToNextPage st')).
Proof.
  intros st Hn Hk.
  assert (H0 : pageNumber (goToNextPage st) = 0).
  { rewrite pageNumber_goToNextPage, Hn. simpl. lia. }
  split; [exact H0 | split; [lia | split; [|split]]].
  - simpl. unfold page_controls. rewrite Hn. reflexivity.
  - intros st' H. simpl in H. unfold page_controls in H.
    destruct (numPages st') as [T|]; [|discriminate]. simpl in H.
    destruct (T =? 0) eqn:E0; [discriminate|]. simpl in H.
    apply Z.eqb_neq in E0. exists T. repeat split; auto.
    apply negb_true_iff in H. rewrite Z.geb_leb in H.
    apply Z.leb_gt in H. exact H.
  - intros st' T HT H1 Hp. rewrite pageNumber_goToNextPage, HT. simpl. lia.
Qed.

Lemma goToNextPage_before_load_witness :
  let loaded := onDocumentLoadSuccess 5 initial in
  pageNumber (goToNextPage initial) = 0 /\
  pageNumber
    (goToNextPage {| numPages := None; pageNumber := 7; scale := JS.lit_1_0 |})
  = 0 /\
  (exists T, numPages loaded = Some T /\ T <> 0 /\ pageNumber loaded < T) /\
  1 <= pageNumber (goToNextPage loaded).
Proof.
  intros loaded.
  destruct (goToNextPage_before_load initial)
    as (H0 & _ & _ & Hoffered & Hknown); [reflexivity | simpl; lia | ].
  destruct (goToNextPage_before_load
              {| numPages := None; pageNumber := 7; scale := JS.lit_1_0 |})
    as (H7 & _); [reflexivity | simpl; lia | ].
  split; [exact H0 | split; [exact H7 | split]].
  - apply Hoffered. reflexivity.
  - apply (Hknown loaded 5); [reflexivity | lia | simpl; lia].
Defined.

(** ** Binary64 addition and subtraction, in units of 2^-55 *)

(** *** Shifting right and rounding to nearest even *)

Lemma iter_pos_nat :
  forall (A : Type) (f : A -> A) (p : positive) (x : A),
    iter_pos f p x = Nat.iter (Pos.to_nat p) f x.
Proof.
  intros A f. induction p as [p IH|p IH|]; intros x; simpl iter_pos.
  - rewrite !IH, Pos2Nat.inj_xI.
    replace (S (2 * Pos.to_nat p))%nat
      with (Pos.to_nat p + (Pos.to_nat p + 1))%nat by lia.
    rewrite !Nat.iter_add. simpl. reflexivity.
  - rewrite !IH, Pos2Nat.inj_xO.
    replace (2 * Pos.to_nat p)%nat
      with (Pos.to_nat p + Pos.to_nat p)%nat by lia.
    rewrite Nat.iter_add. reflexivity.
  - reflexivity.
Qed.

(** [digits2_pos p] is the number of binary digits of [p]. *)
Lemma digits2_pos_bounds :
  forall p : positive,
    2 ^ (Zpos (digits2_pos p) - 1) <= Zpos p < 2 ^ Zpos (digits2_pos p).
Proof.
  induction p as [p IH|p IH|]; simpl digits2_pos.
  - rewrite Pos2Z.inj_succ, Z.pow_succ_r by lia.
    replace (Z.succ (Zpos (digits2_pos p)) - 1)
      with (Z.succ (Zpos (digits2_pos p) - 1)) by lia.
    rewrite Z.pow_succ_r by lia. lia.
  - rewrite Pos2Z.inj_succ, Z.pow_succ_r by lia.
    replace (Z.succ (Zpos (digits2_pos p)) - 1)
      with (Z.succ (Zpos (digits2_pos p) - 1)) by lia.
    rewrite Z.pow_succ_r by lia. lia.
  - simpl. lia.
Qed.

Lemma digits2_pos_unique :
  forall (p : positive) (d : Z),
    2 ^ (d - 1) <= Zpos p < 2 ^ d -> Zpos (digits2_pos p) = d.
Proof.
  intros p d H. pose proof (digits2_pos_bounds p) as B.
  assert (0 < d).
  { destruct (Z.ltb_spec 0 d); auto.
    rewrite (Z.pow_neg_r 2 (d - 1)) in H by lia.
    assert (2 ^ d <= 2 ^ 0) by (apply Z.pow_le_mono_r; lia).
    simpl in *. lia. }
  destruct (Z.lt_trichotomy (Zpos (digits2_pos p)) d) as [L|[E|G]];
    auto; exfalso.
  - assert (2 ^ Zpos (digits2_pos p) <= 2 ^ (d - 1))
      by (apply Z.pow_le_mono_r; lia).
    lia.
  - assert (2 ^ d <= 2 ^ (Zpos (digits2_pos p) - 1))
      by (apply Z.pow_le_mono_r; lia).
    lia.
Qed.

Lemma shr_inv_init :
  forall M, 0 <= M -> shr_inv M 1 (Build_shr_record M false false).
Proof.
  intros M HM. split; [exact HM|]. exists 0. simpl. repeat split; lia.
Qed.

Ltac decide_comparisons :=
  repeat match goal with
         | |- context [Z.eqb ?a ?b] => destruct (Z.eqb_spec a b)
         | |- context [Z.leb ?a ?b] => destruct (Z.leb_spec a b)
         end;
  cbn [negb andb orb]; try reflexivity; try (exfalso; lia).

Lemma shr_1_inv :
  forall M P mrs, 0 < P -> shr_inv M P mrs -> shr_inv M (2 * P) (shr_1 mrs).
Proof.
  intros M P [m r s] HP (Hm & rem & HM & Hrem & Hr & Hs).
  unfold shr_inv. cbn [shr_m shr_r shr_s] in *.
  assert (Hrs : r || s = negb (rem =? 0)) by (subst r s; decide_comparisons).
  destruct m as [|[p|p|]|p]; cbn [shr_1 shr_m shr_r shr_s]; try lia;
    (split; [lia|]); rewrite Hrs.
  - exists rem. repeat split; try lia; decide_comparisons.
  - exists (P + rem). repeat split; try lia; decide_comparisons.
  - exists rem. repeat split; try lia; decide_comparisons.
  - exists (P + rem). repeat split; try lia; decide_comparisons.
Qed.

Lemma shr_iter_inv :
  forall M n, 0 <= M ->
    shr_inv M (2 ^ Z.of_nat n)
      (Nat.iter n shr_1 (Build_shr_record M false false)).
Proof.
  intros M n HM. induction n as [|n IH].
  - apply shr_inv_init, HM.
  - rewrite Nat2Z.inj_succ, Z.pow_succ_r by lia. simpl Nat.iter.
    apply shr_1_inv; [apply Z.pow_pos_nonneg; lia | exact IH].
Qed.

(** Rounding what the shifts have left moves the quotient up by at most
    one and ends within half of [P] of [M]. *)
Lemma round_nearest_even_inv :
  forall M P mrs, 0 < P -> shr_inv M P mrs ->
    let m' := round_nearest_even (shr_m mrs) (loc_of_shr_record mrs) in
    shr_m mrs <= m' <= shr_m mrs + 1 /\ Z.abs (2 * (m' * P - M)) <= P.
Proof.
  intros M P [m r s] HP (Hm & rem & HM & Hrem & Hr & Hs).
  unfold shr_inv. cbn [shr_m shr_r shr_s] in *.
  destruct r, s; cbn [loc_of_shr_record round_nearest_even];
    symmetry in Hr, Hs.
  - apply Z.leb_le in Hr. apply andb_prop in Hs as [_ Hs].
    apply negb_true_iff, Z.eqb_neq in Hs. nia.
  - apply Z.leb_le in Hr.
    assert (2 * rem = P).
    { destruct (Z.eqb_spec rem 0), (Z.eqb_spec (2 * rem) P); simpl in Hs;
        auto; try discriminate; exfalso; lia. }
    destruct (Z.even m); nia.
  - apply Z.leb_gt in Hr. nia.
  - apply Z.leb_gt in Hr. nia.
Qed.

Lemma shr_fexp_exact :
  forall (M : positive) (e : Z),
    53 <= Zpos (digits2_pos M) -> -1074 <= e ->
    exists mrs,
      shr_fexp 53 1024 (Zpos M) e loc_Exact
      = (mrs, e + (Zpos (digits2_pos M) - 53)) /\
      shr_inv (Zpos M) (2 ^ (Zpos (digits2_pos M) - 53)) mrs.
Proof.
  intros M e Hd He. unfold shr_fexp, fexp, emin, Zdigits2.
  cbn [shr_record_of_loc].
  rewrite Z.max_l by lia.
  replace (Zpos (digits2_pos M) + e - 53 - e)
    with (Zpos (digits2_pos M) - 53) by lia.
  destruct (Zpos (digits2_pos M) - 53) as [|k|k] eqn:Ek; try lia.
  - eexists. split; [cbn [shr]; f_equal; lia|]. apply shr_inv_init. lia.
  - eexists. split; [reflexivity|]. rewrite iter_pos_nat.
    rewrite <- (positive_nat_Z k). apply shr_iter_inv. lia.
Qed.

(** Rounding [M * 2^e], with [M] of 53 digits or more and no overflow,
    gives a normal number within half a unit of its last place. *)
Lemma binary_round_aux_pos :
  forall (M : positive) (e : Z),
    53 <= Zpos (digits2_pos M) -> -1074 <= e ->
    Zpos (digits2_pos M) + e <= 1023 ->
    exists m' e',
      binary_round_aux 53 1024 false (Zpos M) e loc_Exact
      = S754_finite false m' e' /\
      Zpos (digits2_pos m') = 53 /\
      e + (Zpos (digits2_pos M) - 53) <= e'
      <= e + (Zpos (digits2_pos M) - 53) + 1 /\
      Z.abs (2 * (Zpos m' * 2 ^ (e' - e) - Zpos M))
      <= 2 ^ (Zpos (digits2_pos M) - 53).
Proof.
  intros M e Hd He Hmax.
  destruct (shr_fexp_exact M e Hd He) as (mrs & Hshr & Hinv).
  unfold binary_round_aux. rewrite Hshr.
  set (k := Zpos (digits2_pos M) - 53) in *.
  assert (HP : 0 < 2 ^ k) by (apply Z.pow_pos_nonneg; lia).
  pose proof (round_nearest_even_inv _ _ _ HP Hinv) as [Hm1 Herr].
  cbv zeta in Hm1, Herr.
  set (m1 := round_nearest_even (shr_m mrs) (loc_of_shr_record mrs)) in *.
  destruct Hinv as (Hm & rem & HM & Hrem & _).
  pose proof (digits2_pos_bounds M) as HB.
  assert (E1 : 2 ^ (Zpos (digits2_pos M) - 1) = 2 ^ 52 * 2 ^ k).
  { rewrite <- Z.pow_add_r by lia. f_equal. lia. }
  assert (E2 : 2 ^ Zpos (digits2_pos M) = 2 ^ 53 * 2 ^ k).
  { rewrite <- Z.pow_add_r by lia. f_equal. lia. }
  rewrite E1, E2 in HB.
  assert (Hlo : 2 ^ 52 <= shr_m mrs < 2 ^ 53) by nia.
  destruct (Z.eq_dec m1 (2 ^ 53)) as [Htop | Hntop].
  - (* the rounded mantissa needs one more shift *)
    rewrite Htop in *.
    exists (Z.to_pos (2 ^ 52)), (e + k + 1).
    split; [|split; [reflexivity | split; [lia|]]].
    + unfold shr_fexp, fexp, emin.
      change (Zdigits2 (2 ^ 53)) with 54.
      rewrite Z.max_l by lia.
      replace (54 + (e + k) - 53 - (e + k)) with 1 by lia.
      cbn -[Z.add Z.leb].
      replace (e + k + 1 <=? 1024 - 53) with true
        by (symmetry; apply Z.leb_le; lia).
      reflexivity.
    + replace (e + k + 1 - e) with (k + 1) by lia.
      rewrite Z.pow_add_r by lia.
      change (Zpos (Z.to_pos (2 ^ 52)) * (2 ^ k * 2 ^ 1))
        with (2 ^ 52 * (2 ^ k * 2)).
      replace (2 ^ 52 * (2 ^ k * 2)) with (2 ^ 53 * 2 ^ k)
        by (change (2 ^ 53) with (2 ^ 52 * 2); ring).
      exact Herr.
  - assert (Hm1r : 2 ^ 52 <= m1 < 2 ^ 53) by lia.
    destruct m1 as [|p1|p1] eqn:Ep; try lia.
    assert (Hd1 : Zpos (digits2_pos p1) = 53)
      by (apply digits2_pos_unique; exact Hm1r).
    exists p1, (e + k).
    split; [|split; [exact Hd1 | split; [lia|]]].
    + unfold shr_fexp, fexp, emin, Zdigits2. rewrite Hd1.
      rewrite Z.max_l by lia.
      replace (53 + (e + k) - 53 - (e + k)) with 0 by lia.
      cbn [shr shr_record_of_loc shr_m].
      replace (e + k <=? 1024 - 53) with true
        by (symmetry; apply Z.leb_le; lia).
      reflexivity.
    + replace (e + k - e) with k by lia. exact Herr.
Qed.

(** *** Values in units of 2^-55 *)

Lemma normal_inv :
  forall x : JS.number, normal x = true ->
    exists m e, x = S754_finite false m e /\ Zpos (digits2_pos m) = 53 /\
                -55 <= e /\ 2 ^ 52 <= Zpos m < 2 ^ 53.
Proof.
  intros [s|s| |[|] m e] H; try discriminate. cbn [normal] in H.
  apply andb_prop in H as [H1 H2]. apply Z.eqb_eq in H1. apply Z.leb_le in H2.
  exists m, e. repeat split; auto; pose proof (digits2_pos_bounds m) as B;
    rewrite H1 in B; apply B.
Qed.

Lemma iter_xO :
  forall (d m : positive), Zpos (Pos.iter xO m d) = Zpos m * 2 ^ Zpos d.
Proof.
  induction d as [|d IH] using Pos.peano_ind; intros m.
  - simpl. lia.
  - rewrite Pos.iter_succ, Pos2Z.inj_xO, IH, Pos2Z.inj_succ, Z.pow_succ_r
      by lia.
    ring.
Qed.

Lemma shl_align_units :
  forall m e, -55 <= e ->
    Zpos (fst (shl_align m e (-55))) = Zpos m * 2 ^ (e + 55).
Proof.
  intros m e He. unfold shl_align.
  destruct (-55 - e) as [|d|d] eqn:E; try lia; cbn [fst].
  - replace (e + 55) with 0 by lia. simpl. lia.
  - rewrite iter_xO. f_equal. f_equal. lia.
Qed.

(** Rounding a positive count of units of 2^-55 to binary64. *)
Lemma round_units :
  forall V : Z, 2 ^ 53 <= V < 2 ^ 57 ->
    exists r, binary_normalize 53 1024 V (-55) false = r /\
              normal r = true /\ Z.abs (units r - V) <= 8.
Proof.
  intros V HV. destruct V as [|M|M]; try lia.
  pose proof (digits2_pos_bounds M) as HB.
  assert (Hd : 54 <= Zpos (digits2_pos M) <= 57).
  { split.
    - destruct (Z.le_gt_cases 54 (Zpos (digits2_pos M))) as [L|G]; auto.
      assert (2 ^ Zpos (digits2_pos M) <= 2 ^ 53)
        by (apply Z.pow_le_mono_r; lia).
      lia.
    - destruct (Z.le_gt_cases (Zpos (digits2_pos M)) 57) as [L|G]; auto.
      assert (2 ^ 57 <= 2 ^ (Zpos (digits2_pos M) - 1))
        by (apply Z.pow_le_mono_r; lia).
      lia. }
  destruct (binary_round_aux_pos M (-55)) as (m' & e' & Hr & Hd' & He' & Herr);
    try lia.
  eexists. split; [reflexivity|].
  cbn [binary_normalize]. unfold binary_round.
  replace (shl_align M (-55) (fexp 53 1024 (Zpos (digits2_pos M) + -55)))
    with (M, -55).
  2:{ unfold shl_align, fexp, emin. rewrite Z.max_l by lia.
      destruct (Zpos (digits2_pos M) + -55 - 53 - -55) eqn:E; try lia;
        reflexivity. }
  rewrite Hr. cbn [normal units]. rewrite Hd'. split.
  - apply andb_true_intro. split; [reflexivity | apply Z.leb_le; lia].
  - replace (e' - -55) with (e' + 55) in Herr by lia.
    assert (2 ^ (Zpos (digits2_pos M) - 53) <= 2 ^ 4)
      by (apply Z.pow_le_mono_r; lia).
    change (2 ^ 4) with 16 in *. lia.
Qed.

(** On normal numbers the order of binary64 is the order of the units. *)
Lemma compare_units :
  forall x y : JS.number, normal x = true -> normal y = true ->
    SFcompare x y = Some (units x ?= units y).
Proof.
  intros x y Hx Hy.
  destruct (normal_inv x Hx) as (m1 & e1 & -> & _ & He1 & Hm1).
  destruct (normal_inv y Hy) as (m2 & e2 & -> & _ & He2 & Hm2).
  cbn [SFcompare units]. f_equal.
  assert (HA : 0 < 2 ^ (e1 + 55)) by (apply Z.pow_pos_nonneg; lia).
  assert (HB : 0 < 2 ^ (e2 + 55)) by (apply Z.pow_pos_nonneg; lia).
  change (2 ^ 53) with (2 * 2 ^ 52) in *.
  destruct (Z.compare_spec e1 e2) as [E|L|G].
  - subst e2. change (Pos.compare_cont Eq m1 m2) with (Zpos m1 ?= Zpos m2).
    destruct (Z.compare_spec (Zpos m1) (Zpos m2)); symmetry;
      [apply Z.compare_eq_iff | apply Z.compare_lt_iff
       | apply Z.compare_gt_iff];
      nia.
  - symmetry. apply Z.compare_lt_iff.
    assert (2 * 2 ^ (e1 + 55) <= 2 ^ (e2 + 55)).
    { rewrite <- (Z.pow_succ_r 2 (e1 + 55)) by lia.
      apply Z.pow_le_mono_r; lia. }
    nia.
  - symmetry. apply Z.compare_gt_iff.
    assert (2 * 2 ^ (e2 + 55) <= 2 ^ (e1 + 55)).
    { rewrite <- (Z.pow_succ_r 2 (e2 + 55)) by lia.
      apply Z.pow_le_mono_r; lia. }
    nia.
Qed.

Lemma units_lit_0_2 : units JS.lit_0_2 = 0x1999999999999A.
Proof. reflexivity. Qed.

(** [x + 0.2] and [x - 0.2] are the exact sum and difference rounded: they
    are off by at most 8 units (half a unit of the last place of a number
    between 2 and 4). *)
Lemma add_lit_0_2_units :
  forall x : JS.number, normal x = true ->
    units x + units JS.lit_0_2 < 2 ^ 57 ->
    normal (JS.add x JS.lit_0_2) = true /\
    Z.abs (units (JS.add x JS.lit_0_2) - (units x + units JS.lit_0_2)) <= 8.
Proof.
  intros x Hx Hlt.
  destruct (normal_inv x Hx) as (m & e & -> & _ & He & Hm).
  rewrite units_lit_0_2 in *. cbn [units] in *.
  assert (HA : 1 <= 2 ^ (e + 55)) by (apply (Z.pow_le_mono_r 2 0); lia).
  unfold JS.add, JS.prec, JS.emax, JS.lit_0_2. cbn [SFadd].
  rewrite Z.min_r by lia. cbn [cond_Zopp]. rewrite shl_align_units by lia.
  change (fst (shl_align 0x1999999999999A (-55) (-55)))
    with 0x1999999999999A%positive.
  destruct (round_units (Zpos m * 2 ^ (e + 55) + 0x1999999999999A))
    as (r & <- & Hn & Herr).
  - change (2 ^ 53) with (2 * 2 ^ 52) in *. nia.
  - split; assumption.
Qed.

Lemma sub_lit_0_2_units :
  forall x : JS.number, normal x = true ->
    2 ^ 53 + units JS.lit_0_2 <= units x < 2 ^ 57 ->
    normal (JS.sub x JS.lit_0_2) = true /\
    Z.abs (units (JS.sub x JS.lit_0_2) - (units x - units JS.lit_0_2)) <= 8.
Proof.
  intros x Hx Hlt.
  destruct (normal_inv x Hx) as (m & e & -> & _ & He & Hm).
  rewrite units_lit_0_2 in *. cbn [units] in *.
  unfold JS.sub, JS.prec, JS.emax, JS.lit_0_2. cbn [SFsub].
  rewrite Z.min_r by lia. cbn [cond_Zopp]. rewrite shl_align_units by lia.
  change (fst (shl_align 0x1999999999999A (-55) (-55)))
    with 0x1999999999999A%positive.
  destruct (round_units (Zpos m * 2 ^ (e + 55) - 0x1999999999999A))
    as (r & <- & Hn & Herr).
  - lia.
  - split; assumption.
Qed.

Lemma le_units :
  forall x y : JS.number, normal x = true -> normal y = true ->
    JS.le x y = (units x <=? units y).
Proof.
  intros x y Hx Hy. unfold JS.le, SFleb. rewrite (compare_units x y Hx Hy).
  unfold Z.leb. destruct (units x ?= units y); reflexivity.
Qed.

Lemma lt_units :
  forall x y : JS.number, normal x = true -> normal y = true ->
    JS.lt x y = (units x <? units y).
Proof.
  intros x y Hx Hy. unfold JS.lt, SFltb. rewrite (compare_units x y Hx Hy).
  unfold Z.ltb. destruct (units x ?= units y); reflexivity.
Qed.

Lemma Math_min_normal :
  forall x y : JS.number, normal x = true -> normal y = true ->
    JS.Math_min x y = if units y <? units x then y else x.
Proof.
  intros x y Hx Hy. rewrite <- (lt_units y x Hy Hx).
  destruct (normal_inv x Hx) as (m1 & e1 & -> & _).
  destruct (normal_inv y Hy) as (m2 & e2 & -> & _). reflexivity.
Qed.

Lemma Math_max_normal :
  forall x y : JS.number, normal x = true -> normal y = true ->
    JS.Math_max x y = if units x <? units y then y else x.
Proof.
  intros x y Hx Hy. rewrite <- (lt_units x y Hx Hy).
  destruct (normal_inv x Hx) as (m1 & e1 & -> & _).
  destruct (normal_inv y Hy) as (m2 & e2 & -> & _). reflexivity.
Qed.

Lemma units_lit_0_5 : units JS.lit_0_5 = 2 ^ 54.
Proof. reflexivity. Qed.

Lemma units_lit_3_0 : units JS.lit_3_0 = 3 * 2 ^ 55.
Proof. reflexivity. Qed.

(** A binary64 between 0.5 and 3.0 is a normal number of 2^54 to 3 * 2^55
    units, and the other way round. *)
Lemma in_range_normal :
  forall s : JS.number, JS.binary64 s = true -> in_range s = true ->
    normal s = true /\ 2 ^ 54 <= units s <= 3 * 2 ^ 55.
Proof.
  intros s Hv Hr.
  assert (Hn : normal s = true).
  { destruct s as [sg|sg| |[|] m e]; try (destruct sg); try discriminate.
    unfold in_range, JS.le, SFleb, JS.lit_0_5 in Hr. cbn [SFcompare] in Hr.
    apply andb_prop in Hr as [Hlo _].
    assert (He : -53 <= e).
    { revert Hlo. destruct (Z.compare_spec (-53) e); intros Hlo;
        first [lia | discriminate Hlo]. }
    unfold JS.binary64, valid_binary, bounded, canonical_mantissa, fexp, emin,
      JS.prec, JS.emax in Hv.
    apply andb_prop in Hv as [Hc _]. apply Z.eqb_eq in Hc.
    cbn [normal]. apply andb_true_intro. split.
    - apply Z.eqb_eq. lia.
    - apply Z.leb_le. lia. }
  split; [exact Hn|].
  unfold in_range in Hr. apply andb_prop in Hr as [Hlo Hhi].
  rewrite le_units in Hlo, Hhi by (try exact Hn; reflexivity).
  rewrite units_lit_0_5 in Hlo. rewrite units_lit_3_0 in Hhi.
  apply Z.leb_le in Hlo, Hhi. lia.
Qed.

Lemma normal_in_range :
  forall s : JS.number, normal s = true -> 2 ^ 54 <= units s <= 3 * 2 ^ 55 ->
    JS.binary64 s = true /\ in_range s = true.
Proof.
  intros s Hn Hu. split.
  - destruct (normal_inv s Hn) as (m & e & -> & Hd & He & Hm).
    cbn [units] in Hu.
    assert (e + 55 < 5).
    { destruct (Z.lt_ge_cases (e + 55) 5) as [L|G]; auto.
      assert (2 ^ 5 <= 2 ^ (e + 55)) by (apply Z.pow_le_mono_r; lia).
      assert (2 ^ 52 * 2 ^ 5 <= Zpos m * 2 ^ (e + 55))
        by (apply Z.mul_le_mono_nonneg; lia).
      exfalso. lia. }
    unfold JS.binary64, valid_binary, bounded, canonical_mantissa, fexp, emin,
      JS.prec, JS.emax.
    apply andb_true_intro. split; [apply Z.eqb_eq | apply Z.leb_le]; lia.
  - unfold in_range. rewrite !le_units by (try exact Hn; reflexivity).
    rewrite units_lit_0_5, units_lit_3_0.
    apply andb_true_intro. split; apply Z.leb_le; lia.
Qed.

(** ** Zoom *)

Lemma scale_zoomIn :
  forall st, scale (zoomIn st) = zoomIn_updater (scale st).
Proof. reflexivity. Qed.

Lemma scale_zoomOut :
  forall st, scale (zoomOut st) = zoomOut_updater (scale st).
Proof. reflexivity. Qed.

(** The sum of [zoomIn], the value it stores, and their units. *)
Lemma zoomIn_units :
  forall s : JS.number, normal s = true -> 2 ^ 54 <= units s <= 3 * 2 ^ 55 ->
    let sum := JS.add s JS.lit_0_2 in
    let s' := zoomIn_updater s in
    normal sum = true /\
    Z.abs (units sum - (units s + units JS.lit_0_2)) <= 8 /\
    zoomIn_clamped s = (3 * 2 ^ 55 <? units sum) /\
    s' = (if zoomIn_clamped s then JS.lit_3_0 else sum) /\
    normal s' = true /\ 2 ^ 54 <= units s' <= 3 * 2 ^ 55.
Proof.
  intros s Hn Hu sum s'.
  destruct (add_lit_0_2_units s Hn) as [Hns Herr].
  { rewrite units_lit_0_2. lia. }
  fold sum in Hns, Herr.
  assert (Hc : zoomIn_clamped s = (3 * 2 ^ 55 <? units sum)).
  { unfold zoomIn_clamped. fold sum.
    rewrite lt_units by (try exact Hns; reflexivity). reflexivity. }
  assert (Hs' : s' = if zoomIn_clamped s then JS.lit_3_0 else sum).
  { unfold s', zoomIn_updater. fold sum. rewrite Math_min_normal by (try exact Hns; reflexivity).
    rewrite Hc, units_lit_3_0. reflexivity. }
  repeat split; auto; rewrite Hs', Hc;
    rewrite units_lit_0_2 in Herr;
    destruct (Z.ltb_spec (3 * 2 ^ 55) (units sum));
    try reflexivity; try exact Hns; rewrite ?units_lit_3_0; lia.
Qed.

(** The difference of [zoomOut], the value it stores, and their units. *)
Lemma zoomOut_units :
  forall s : JS.number, normal s = true -> 2 ^ 54 <= units s <= 3 * 2 ^ 55 ->
    let diff := JS.sub s JS.lit_0_2 in
    let s' := zoomOut_updater s in
    normal diff = true /\
    Z.abs (units diff - (units s - units JS.lit_0_2)) <= 8 /\
    zoomOut_clamped s = (units diff <? 2 ^ 54) /\
    s' = (if zoomOut_clamped s then JS.lit_0_5 else diff) /\
    normal s' = true /\ 2 ^ 54 <= units s' <= 3 * 2 ^ 55.
Proof.
  intros s Hn Hu diff s'.
  destruct (sub_lit_0_2_units s Hn) as [Hns Herr].
  { rewrite units_lit_0_2. lia. }
  fold diff in Hns, Herr.
  assert (Hc : zoomOut_clamped s = (units diff <? 2 ^ 54)).
  { unfold zoomOut_clamped. fold diff.
    rewrite lt_units by (try exact Hns; reflexivity). reflexivity. }
  assert (Hs' : s' = if zoomOut_clamped s then JS.lit_0_5 else diff).
  { unfold s', zoomOut_updater. fold diff. rewrite Math_max_normal by (try exact Hns; reflexivity).
    rewrite Hc, units_lit_0_5. reflexivity. }
  repeat split; auto; rewrite Hs', Hc;
    rewrite units_lit_0_2 in Herr;
    destruct (Z.ltb_spec (units diff) (2 ^ 54));
    try reflexivity; try exact Hns; rewrite ?units_lit_0_5; lia.
Qed.

Lemma zoom_click_in_range :
  forall ev st, zoom_click ev ->
    JS.binary64 (scale st) = true -> in_range (scale st) = true ->
    JS.binary64 (scale (dispatch ev st)) = true /\
    in_range (scale (dispatch ev st)) = true.
Proof.
  intros ev st Hz Hv Hr.
  destruct (in_range_normal _ Hv Hr) as [Hn Hu].
  destruct Hz as [-> | ->]; cbn [dispatch].
  - rewrite scale_zoomIn.
    destruct (zoomIn_units _ Hn Hu) as (_ & _ & _ & _ & Hn' & Hu').
    apply normal_in_range; assumption.
  - rewrite scale_zoomOut.
    destruct (zoomOut_units _ Hn Hu) as (_ & _ & _ & _ & Hn' & Hu').
    apply normal_in_range; assumption.
Qed.

(** C3: from any scale in [0.5, 3.0], every sequence of [zoomIn] and
    [zoomOut] calls leaves the scale in [0.5, 3.0], bounds included. *)
Theorem zoom_keeps_scale_in_range :
  forall (evs : list Event) (st : ViewState),
    JS.binary64 (scale st) = true -> in_range (scale st) = true ->
    Forall zoom_click evs ->
    JS.binary64 (scale (run evs st)) = true /\
    JS.le JS.lit_0_5 (scale (run evs st)) = true /\
    JS.le (scale (run evs st)) JS.lit_3_0 = true.
Proof.
  induction evs as [|ev evs IH]; intros st Hv Hr Hall.
  - apply andb_prop in Hr. simpl. tauto.
  - inversion Hall as [|? ? Hev Hrest]; subst.
    destruct (zoom_click_in_range ev st Hev Hv Hr) as [Hv' Hr'].
    exact (IH _ Hv' Hr' Hrest).
Qed.

Lemma zoom_keeps_scale_in_range_witness :
  let st := run [ClickZoomIn; ClickZoomIn; ClickZoomOut; ClickZoomOut;
                 ClickZoomOut; ClickZoomOut; ClickZoomOut] initial in
  JS.binary64 (scale st) = true /\
  JS.le JS.lit_0_5 (scale st) = true /\ JS.le (scale st) JS.lit_3_0 = true.
Proof.
  apply (zoom_keeps_scale_in_range
           [ClickZoomIn; ClickZoomIn; ClickZoomOut; ClickZoomOut;
            ClickZoomOut; ClickZoomOut; ClickZoomOut] initial).
  - reflexivity.
  - reflexivity.
  - repeat (apply Forall_cons; [unfold zoom_click; auto|]). apply Forall_nil.
Defined.

Lemma same_eq : forall x y : JS.number, JS.same x y = true -> x = y.
Proof.
  intros [s1|s1| |s1 m1 e1] [s2|s2| |s2 m2 e2] H; try discriminate;
    cbn [JS.same] in H.
  - apply Bool.eqb_prop in H. congruence.
  - apply Bool.eqb_prop in H. congruence.
  - reflexivity.
  - apply andb_prop in H as [H He]. apply andb_prop in H as [Hs Hm].
    apply Bool.eqb_prop in Hs. apply Pos.eqb_eq in Hm. apply Z.eqb_eq in He.
    congruence.
Qed.

Lemma same_refl : forall x : JS.number, JS.same x x = true.
Proof.
  intros [s|s| |s m e]; cbn [JS.same]; auto using Bool.eqb_reflx.
  rewrite Bool.eqb_reflx, Pos.eqb_refl, Z.eqb_refl. reflexivity.
Qed.

Lemma scale_in_In :
  forall l s, scale_in l s = true <-> In s l.
Proof.
  intros l s. unfold scale_in. rewrite existsb_exists. split.
  - intros (x & Hx & Hs). apply same_eq in Hs. subst. exact Hx.
  - intros H. exists s. split; [exact H | apply same_refl].
Qed.

(** Every scale of [zoom_scales] is reached from the initial state by
    clicks that the render offers. *)
Lemma zoom_scales_reached :
  map (fun evs => scale (run evs initial)) zoom_paths = zoom_scales /\
  forallb (fun evs => session evs initial) zoom_paths = true /\
  Forall (Forall zoom_click) zoom_paths.
Proof.
  split; [vm_compute; reflexivity | split; [vm_compute; reflexivity|]].
  unfold zoom_paths.
  repeat (apply Forall_cons;
          [repeat (apply Forall_cons; [unfold zoom_click; auto|]);
           apply Forall_nil|]).
  apply Forall_nil.
Qed.

(** The list [zoom_scales] holds 1.0, and both updaters map it into
    itself. *)
Lemma zoom_scales_closed :
  scale_in zoom_scales JS.lit_1_0 = true /\
  forallb (fun s => scale_in zoom_scales (zoomIn_updater s) &&
                    scale_in zoom_scales (zoomOut_updater s)) zoom_scales
  = true.
Proof. split; vm_compute; reflexivity. Qed.

(** On [zoom_scales] a round trip whose first step is not clamped ends
    where it began. *)
Lemma zoom_scales_round_trip :
  forallb (fun s =>
             (zoomIn_clamped s || JS.same (zoomOut_updater (zoomIn_updater s)) s)
             && (zoomOut_clamped s
                 || JS.same (zoomIn_updater (zoomOut_updater s)) s))
          zoom_scales
  = true.
Proof. vm_compute. reflexivity. Qed.

Lemma zoom_clicks_reach_zoom_scales :
  forall evs st, Forall zoom_click evs -> In (scale st) zoom_scales ->
    In (scale (run evs st)) zoom_scales.
Proof.
  induction evs as [|ev evs IH]; intros st Hall Hin; [exact Hin|].
  inversion Hall as [|? ? Hev Hrest]; subst. apply IH; [exact Hrest|].
  destruct zoom_scales_closed as [_ Hc].
  rewrite forallb_forall in Hc. specialize (Hc _ Hin).
  apply andb_prop in Hc as [Hi Ho]. apply scale_in_In in Hi, Ho.
  destruct Hev as [-> | ->]; assumption.
Qed.

Lemma zoom_round_trip_on_zoom_scales :
  forall st, In (scale st) zoom_scales ->
    (zoomIn_clamped (scale st) = false -> zoomOut (zoomIn st) = st) /\
    (zoomOut_clamped (scale st) = false -> zoomIn (zoomOut st) = st).
Proof.
  intros [np p s] Hin. cbn [scale] in *.
  pose proof zoom_scales_round_trip as H. rewrite forallb_forall in H.
  specialize (H _ Hin). apply andb_prop in H as [Hio Hoi].
  split; intros Hc; rewrite Hc in *; cbn [orb] in *;
    unfold zoomIn, zoomOut, setScale_with; cbn [numPages pageNumber scale];
    f_equal; apply same_eq; assumption.
Qed.

Lemma zoom_round_trip_within_rounding :
  forall s : JS.number, JS.binary64 s = true -> in_range s = true ->
    (zoomIn_clamped s = false ->
     Z.abs (units (zoomOut_updater (zoomIn_updater s)) - units s) <= 16) /\
    (zoomOut_clamped s = false ->
     Z.abs (units (zoomIn_updater (zoomOut_updater s)) - units s) <= 16).
Proof.
  intros s Hv Hr. destruct (in_range_normal s Hv Hr) as [Hn Hu]. split; intros Hc.
  - destruct (zoomIn_units s Hn Hu) as (_ & He1 & _ & Hs1 & Hn1 & Hu1).
    rewrite Hc in Hs1.
    destruct (zoomOut_units _ Hn1 Hu1) as (_ & He2 & Hc2 & Hs2 & _ & _).
    rewrite Hs2, Hc2. rewrite Hs1 in *. rewrite units_lit_0_2 in *.
    destruct (Z.ltb_spec (units (JS.sub (JS.add s JS.lit_0_2) JS.lit_0_2))
                (2 ^ 54)); rewrite ?units_lit_0_5; lia.
  - destruct (zoomOut_units s Hn Hu) as (_ & He1 & _ & Hs1 & Hn1 & Hu1).
    rewrite Hc in Hs1.
    destruct (zoomIn_units _ Hn1 Hu1) as (_ & He2 & Hc2 & Hs2 & _ & _).
    rewrite Hs2, Hc2. rewrite Hs1 in *. rewrite units_lit_0_2 in *.
    destruct (Z.ltb_spec (3 * 2 ^ 55)
                (units (JS.add (JS.sub s JS.lit_0_2) JS.lit_0_2)));
      rewrite ?units_lit_3_0; lia.
Qed.

Lemma events_reach_zoom_scales :
  forall evs st, In (scale st) zoom_scales ->
    In (scale (run evs st)) zoom_scales.
Proof.
  induction evs as [|ev evs IH]; intros st Hin; [exact Hin|].
  apply IH. destruct ev as [n| | |p| |]; cbn [dispatch]; try exact Hin.
  - unfold onDocumentLoadSuccess. destruct (pageNumber st =? 1); exact Hin.
  - apply (zoom_clicks_reach_zoom_scales [ClickZoomIn] st);
      [repeat constructor | exact Hin].
  - apply (zoom_clicks_reach_zoom_scales [ClickZoomOut] st);
      [constructor; [right; reflexivity | constructor] | exact Hin].
Qed.

(** C4: on every scale that the component holds, whatever events came
    since it was mounted with the scale at 1.0, [zoomIn] then [zoomOut],
    and [zoomOut] then [zoomIn], give back the state they began with,
    unless the first of the two was clamped; at 3.0 [zoomIn] is such a
    clamped step: it does nothing, and [zoomOut] then gives 2.8, not
    3.0. *)
Theorem zoom_round_trip :
  forall evs : list Event,
    let st := run evs initial in
    (zoomIn_clamped (scale st) = false -> zoomOut (zoomIn st) = st) /\
    (zoomOut_clamped (scale st) = false -> zoomIn (zoomOut st) = st) /\
    (scale st = JS.lit_3_0 ->
     zoomIn_clamped (scale st) = true /\ zoomIn st = st /\
     scale (zoomOut (zoomIn st)) = num_2_8 /\ zoomOut (zoomIn st) <> st).
Proof.
  intros evs st.
  assert (Hin : In (scale st) zoom_scales).
  { apply events_reach_zoom_scales. apply scale_in_In.
    apply zoom_scales_closed. }
  destruct (zoom_round_trip_on_zoom_scales st Hin) as [Hio Hoi].
  split; [exact Hio | split; [exact Hoi|]].
  clear Hin Hio Hoi. destruct st as [np p s]. intros Hs. cbn [scale] in Hs.
  subst s. repeat split; try (vm_compute; reflexivity).
  intros H. apply (f_equal scale) in H. vm_compute in H. discriminate H.
Qed.

Lemma zoom_round_trip_witness :
  let st := run [DocumentLoaded 5; ClickNext; ClickZoomIn; ClickZoomIn]
                initial in
  let low := run (repeat ClickZoomOut 3) initial in
  let top := run (repeat ClickZoomIn 10) initial in
  zoomOut (zoomIn st) = st /\ zoomIn (zoomOut st) = st /\
  zoomOut (zoomIn low) = low /\
  zoomIn top = top /\ scale (zoomOut (zoomIn top)) = num_2_8.
Proof.
  intros st low top.
  destruct (zoom_round_trip
              [DocumentLoaded 5; ClickNext; ClickZoomIn; ClickZoomIn])
    as (Hio & Hoi & _).
  destruct (zoom_round_trip (repeat ClickZoomOut 3)) as (Hlow & _).
  destruct (zoom_round_trip (repeat ClickZoomIn 10)) as (_ & _ & Htop).
  destruct Htop as (_ & Ht1 & Ht2 & _); [reflexivity|].
  split; [apply Hio; reflexivity | split; [apply Hoi; reflexivity |]].
  split; [apply Hlow; reflexivity | split; [exact Ht1 | exact Ht2]].
Defined.

(** Off the scales that the component holds the round trip need not be
    exact: at 0.6, a binary64 in [0.5, 3.0] that no click leads to,
    [zoomIn] gives 0.8 and [zoomOut] then gives 0.6000000000000001, with
    neither step clamped. *)
Lemma zoom_round_trip_inexact_at_0_6 :
  scale_in zoom_scales num_0_6 = false /\
  JS.binary64 num_0_6 = true /\ in_range num_0_6 = true /\
  zoomIn_clamped num_0_6 = false /\ zoomOut_clamped num_0_8 = false /\
  scale (zoomIn {| numPages := Some 5; pageNumber := 1; scale := num_0_6 |})
  = num_0_8 /\
  scale (zoomOut (zoomIn {| numPages := Some 5; pageNumber := 1;
                            scale := num_0_6 |}))
  = num_0_6_up.
Proof. repeat split; vm_compute; reflexivity. Qed.

(** ** The page buttons *)

Lemma page_controls_loaded :
  forall st T, numPages st = Some T -> T <> 0 ->
    page_controls st
    = Shown {| previous_disabled := pageNumber st <=? 1;
               page_label := (pageNumber st, T);
               next_disabled := pageNumber st >=? T |}.
Proof.
  intros st T Hn HT. unfold page_controls. rewrite Hn. simpl.
  replace (T =? 0) with false by (symmetry; apply Z.eqb_neq; exact HT).
  reflexivity.
Qed.

Lemma setPageNumber_same :
  forall st p, setPageNumber p st = st <-> p = pageNumber st.
Proof.
  intros [np q sc] p. unfold setPageNumber. simpl. split.
  - intros H. injection H. auto.
  - intros ->. reflexivity.
Qed.

(** X1: with the page among the [T] pages, Previous is disabled exactly
    when [goToPrevPage] would change nothing, and Next exactly when
    [goToNextPage] would; a button that is not disabled moves the page by
    exactly one, so the clamps of the two handlers are never what a click
    meets. *)
Theorem page_buttons_disabled_iff_no_op :
  forall st T c, numPages st = Some T -> 1 <= pageNumber st <= T ->
    page_controls st = Shown c ->
    (previous_disabled c = true <-> goToPrevPage st = st) /\
    (next_disabled c = true <-> goToNextPage st = st) /\
    (previous_disabled c = false ->
     pageNumber (goToPrevPage st) = pageNumber st - 1) /\
    (next_disabled c = false ->
     pageNumber (goToNextPage st) = pageNumber st + 1).
Proof.
  intros st T c Hn Hp Hc.
  rewrite (page_controls_loaded st T Hn) in Hc by lia.
  injection Hc as <-. cbn [previous_disabled next_disabled].
  unfold goToPrevPage, goToNextPage, setPageNumber_with.
  rewrite !setPageNumber_same, Hn. cbn [pageNumber setPageNumber JS.ToNumber].
  rewrite Z.geb_leb. repeat split; intros H.
  - apply Z.leb_le in H. lia.
  - apply Z.leb_le. lia.
  - apply Z.leb_le in H. lia.
  - apply Z.leb_le. lia.
  - apply Z.leb_gt in H. lia.
  - apply Z.leb_gt in H. lia.
Qed.

Lemma page_buttons_disabled_iff_no_op_witness :
  let st := {| numPages := Some 3; pageNumber := 3; scale := JS.lit_1_0 |} in
  goToNextPage st = st /\ pageNumber (goToPrevPage st) = 3 - 1.
Proof.
  intros st.
  destruct (page_buttons_disabled_iff_no_op st 3
              {| previous_disabled := false; page_label := (3, 3);
                 next_disabled := true |})
    as (_ & Hnext & Hprev & _); [reflexivity | simpl; lia | reflexivity |].
  split; [apply Hnext | apply Hprev]; reflexivity.
Defined.

(** X2: away from the ends Next and Previous undo each other; at the last
    page [T] Next then Previous ends at max(1, T - 1), one page lower
    unless there is one page only, and at the first page Previous then
    Next ends at min(T, 2), page 2 unless there is one page only. *)
Theorem next_previous_round_trip :
  forall st T, numPages st = Some T -> 1 <= pageNumber st <= T ->
    (pageNumber st < T -> goToPrevPage (goToNextPage st) = st) /\
    (1 < pageNumber st -> goToNextPage (goToPrevPage st) = st) /\
    (pageNumber st = T ->
     pageNumber (goToPrevPage (goToNextPage st)) = Z.max 1 (T - 1)) /\
    (pageNumber st = 1 ->
     pageNumber (goToNextPage (goToPrevPage st)) = Z.min T 2).
Proof.
  intros [np p sc] T Hn Hp. cbn [numPages pageNumber] in *. subst np.
  unfold goToPrevPage, goToNextPage, setPageNumber_with, setPageNumber.
  cbn [numPages pageNumber scale JS.ToNumber].
  split; [|split; [|split]]; intros;
    [f_equal; lia | f_equal; lia | lia | lia].
Qed.

Lemma next_previous_round_trip_witness :
  let st := {| numPages := Some 4; pageNumber := 2; scale := JS.lit_1_0 |} in
  let last := {| numPages := Some 4; pageNumber := 4; scale := JS.lit_1_0 |} in
  let first := {| numPages := Some 4; pageNumber := 1; scale := JS.lit_1_0 |} in
  let only := onDocumentLoadSuccess 1 initial in
  goToPrevPage (goToNextPage st) = st /\
  goToNextPage (goToPrevPage st) = st /\
  pageNumber (goToPrevPage (goToNextPage last)) = 3 /\
  pageNumber (goToNextPage (goToPrevPage first)) = 2 /\
  pageNumber (goToPrevPage (goToNextPage only)) = 1 /\
  pageNumber (goToNextPage (goToPrevPage only)) = 1.
Proof.
  intros st last first only.
  destruct (next_previous_round_trip st 4) as (H1 & H2 & _);
    [reflexivity | simpl; lia |].
  destruct (next_previous_round_trip last 4) as (_ & _ & H3 & _);
    [reflexivity | simpl; lia |].
  destruct (next_previous_round_trip first 4) as (_ & _ & _ & H4);
    [reflexivity | simpl; lia |].
  destruct (next_previous_round_trip only 1) as (_ & _ & H5 & H6);
    [reflexivity | simpl; lia |].
  split; [apply H1; simpl; lia | split; [apply H2; simpl; lia |]].
  split; [apply H3; reflexivity | split; [apply H4; reflexivity |]].
  split; [apply H5; reflexivity | apply H6; reflexivity].
Defined.

(** ** Loads after the first *)

(** X3: a load that reports the page count already stored changes nothing
    at all, wherever the page and the scale are; so loading is idempotent,
    and the load of the thumbnail [Document] leaves the view as it is. *)
Theorem repeated_load_changes_nothing :
  forall st n, numPages st = Some n ->
    onDocumentLoadSuccess n st = st /\
    forall m, onDocumentLoadSuccess m (onDocumentLoadSuccess m st)
              = onDocumentLoadSuccess m st.
Proof.
  assert (Hsame : forall st n, numPages st = Some n ->
                               onDocumentLoadSuccess n st = st).
  { intros [np p sc] n Hn. cbn [numPages] in Hn. subst np.
    unfold onDocumentLoadSuccess, setPageNumber, setNumPages.
    cbn [numPages pageNumber scale].
    destruct (Z.eqb_spec p 1) as [-> | _]; reflexivity. }
  intros st n Hn. split; [exact (Hsame st n Hn)|].
  intros m. apply Hsame. unfold onDocumentLoadSuccess.
  destruct (pageNumber st =? 1); reflexivity.
Qed.

Lemma repeated_load_changes_nothing_witness :
  let st := run [ClickNext; ClickNext; ClickZoomIn]
                (onDocumentLoadSuccess 5 initial) in
  onDocumentLoadSuccess 5 st = st.
Proof.
  intros st.
  destruct (repeated_load_changes_nothing st 5) as [H _]; [reflexivity|].
  exact H.
Defined.

(** X4: the load handler never clamps the page: after a load that reports
    [n >= 1] pages with the page above [n], the page is still where it was,
    the label reads that page of [n], Next is disabled, Previous is not,
    and no thumbnail is active. *)
Theorem load_of_fewer_pages_keeps_page :
  forall st n, 1 <= n < 2 ^ 32 -> n < pageNumber st ->
    let st' := onDocumentLoadSuccess n st in
    pageNumber st' = pageNumber st /\
    page_controls st'
    = Shown {| previous_disabled := false;
               page_label := (pageNumber st, n);
               next_disabled := true |} /\
    active_thumbnails st' = [].
Proof.
  intros st n Hn Hp st'.
  assert (Hnum : numPages st' = Some n).
  { unfold st', onDocumentLoadSuccess. destruct (pageNumber st =? 1);
      reflexivity. }
  assert (Hpage : pageNumber st' = pageNumber st).
  { unfold st', onDocumentLoadSuccess.
    destruct (Z.eqb_spec (pageNumber st) 1) as [E | _]; [lia | reflexivity]. }
  split; [exact Hpage | split].
  - rewrite (page_controls_loaded st' n Hnum) by lia. rewrite Hpage.
    replace (pageNumber st <=? 1) with false
      by (symmetry; apply Z.leb_gt; lia).
    replace (pageNumber st >=? n) with true
      by (symmetry; rewrite Z.geb_leb; apply Z.leb_le; lia).
    reflexivity.
  - unfold active_thumbnails, thumbnails_on_page.
    rewrite (thumbnail_sidebar_loaded st' n Hnum Hn), Hpage.
    assert (Hnone : forall l, (forall p, In p l -> p <> pageNumber st) ->
                      filter snd (map (fun p => (p, p =? pageNumber st)) l)
                      = []).
    { induction l as [|q l IH]; intros Hl; [reflexivity|]. cbn [map filter snd].
      replace (q =? pageNumber st) with false
        by (symmetry; apply Z.eqb_neq, Hl; left; reflexivity).
      apply IH. intros p Hin. apply Hl. right. exact Hin. }
    apply Hnone. intros p Hin. unfold pages in Hin.
    apply in_map_iff in Hin as (i & <- & Hi). apply in_seq in Hi. lia.
Qed.

Lemma load_of_fewer_pages_keeps_page_witness :
  let st := {| numPages := Some 5; pageNumber := 5; scale := JS.lit_1_0 |} in
  pageNumber (onDocumentLoadSuccess 3 st) = 5 /\
  active_thumbnails (onDocumentLoadSuccess 3 st) = [].
Proof.
  intros st.
  destruct (load_of_fewer_pages_keeps_page st 3) as (H1 & _ & H3);
    [lia | simpl; lia |].
  split; [exact H1 | exact H3].
Defined.

(** ** The active thumbnail *)

Lemma filter_active :
  forall (c : Z) (l : list Z),
    filter snd (map (fun p => (p, p =? c)) l)
    = map (fun p => (p, true)) (filter (fun p => p =? c) l).
Proof.
  intros c. induction l as [|q l IH]; [reflexivity|]. cbn [map filter snd].
  destruct (q =? c); cbn [map]; rewrite IH; reflexivity.
Qed.

Lemma filter_page_of_seq :
  forall (c : Z) (len start : nat),
    filter (fun p => p =? c) (map Z.of_nat (seq start len))
    = if (Z.of_nat start <=? c) && (c <? Z.of_nat start + Z.of_nat len)
      then [c] else [].
Proof.
  intros c. induction len as [|len IH]; intros start.
  - cbn [seq map filter].
    destruct (Z.leb_spec (Z.of_nat start) c),
             (Z.ltb_spec c (Z.of_nat start + Z.of_nat 0));
      cbn [andb]; try reflexivity; lia.
  - cbn [seq map filter]. rewrite IH.
    destruct (Z.eqb_spec (Z.of_nat start) c) as [E | E];
      destruct (Z.leb_spec (Z.of_nat (S start)) c),
               (Z.ltb_spec c (Z.of_nat (S start) + Z.of_nat len)),
               (Z.leb_spec (Z.of_nat start) c),
               (Z.ltb_spec c (Z.of_nat start + Z.of_nat (S len)));
      cbn [andb]; try reflexivity; try lia.
    subst c. reflexivity.
Qed.

Lemma filter_page_of_pages :
  forall c T, 0 <= T ->
    filter (fun p => p =? c) (pages T)
    = if (1 <=? c) && (c <=? T) then [c] else [].
Proof.
  intros c T HT. unfold pages. rewrite filter_page_of_seq.
  rewrite Z2Nat.id by exact HT. change (Z.of_nat 1) with 1.
  destruct (Z.leb_spec 1 c), (Z.ltb_spec c (1 + T)), (Z.leb_spec c T);
    cbn [andb]; try reflexivity; lia.
Qed.

Lemma active_thumbnails_loaded :
  forall st T, numPages st = Some T -> 1 <= T < 2 ^ 32 ->
    active_thumbnails st
    = if (1 <=? pageNumber st) && (pageNumber st <=? T)
      then [(pageNumber st, true)] else [].
Proof.
  intros st T Hn HT. unfold active_thumbnails, thumbnails_on_page.
  rewrite (thumbnail_sidebar_loaded st T Hn HT), filter_active.
  rewrite filter_page_of_pages by lia.
  destruct ((1 <=? pageNumber st) && (pageNumber st <=? T)); reflexivity.
Qed.

(** X5: with [T] pages there are [T] thumbnails, of pairwise distinct pages
    (so their keys differ); exactly one of them is active, that of the
    current page, if the page is among the [T], and none is otherwise. *)
Theorem thumbnails_one_active :
  forall st T, numPages st = Some T -> 1 <= T < 2 ^ 32 ->
    List.length (thumbnails_on_page st) = Z.to_nat T /\
    NoDup (map fst (thumbnails_on_page st)) /\
    (1 <= pageNumber st <= T ->
     active_thumbnails st = [(pageNumber st, true)]) /\
    (~ 1 <= pageNumber st <= T -> active_thumbnails st = []).
Proof.
  intros st T Hn HT.
  assert (Hth : thumbnails_on_page st
                = map (fun p => (p, p =? pageNumber st)) (pages T)).
  { unfold thumbnails_on_page.
    rewrite (thumbnail_sidebar_loaded st T Hn HT). reflexivity. }
  split; [|split; [|split]].
  - rewrite Hth. unfold pages. rewrite !length_map, length_seq. reflexivity.
  - rewrite Hth, map_map. cbn [fst]. rewrite map_id. unfold pages.
    apply Finite.Injective_map_NoDup; [|apply seq_NoDup].
    intros a b Hab. apply Nat2Z.inj. exact Hab.
  - intros Hp. rewrite (active_thumbnails_loaded st T Hn HT).
    replace ((1 <=? pageNumber st) && (pageNumber st <=? T)) with true;
      [reflexivity|].
    symmetry. apply andb_true_intro. split; apply Z.leb_le; lia.
  - intros Hp. rewrite (active_thumbnails_loaded st T Hn HT).
    destruct (Z.leb_spec 1 (pageNumber st)), (Z.leb_spec (pageNumber st) T);
      cbn [andb]; try reflexivity; exfalso; apply Hp; lia.
Qed.

Lemma thumbnails_one_active_witness :
  let st := {| numPages := Some 4; pageNumber := 3; scale := JS.lit_1_0 |} in
  let out := {| numPages := Some 4; pageNumber := 0; scale := JS.lit_1_0 |} in
  List.length (thumbnails_on_page st) = 4%nat /\
  active_thumbnails st = [(3, true)] /\ active_thumbnails out = [].
Proof.
  intros st out.
  destruct (thumbnails_one_active st 4) as (H1 & _ & H3 & _);
    [reflexivity | lia |].
  destruct (thumbnails_one_active out 4) as (_ & _ & _ & H4);
    [reflexivity | lia |].
  split; [exact H1 | split; [apply H3; simpl; lia | apply H4; simpl; lia]].
Defined.

Lemma thumbnail_offered_inv :
  forall st p, offered st (ClickThumbnail p) = true ->
    exists T, numPages st = Some T /\ 1 <= T < 2 ^ 32 /\ 1 <= p <= T.
Proof.
  intros st p H. simpl in H. unfold thumbnail_sidebar in H.
  destruct (numPages st) as [T|] eqn:Hn; [|discriminate]. simpl in H.
  destruct (T =? 0) eqn:E0; [discriminate|]. simpl in H.
  unfold JS.Array_from_new_Array in H.
  destruct ((0 <=? T) && (T <? 2 ^ 32)) eqn:Eb; [|discriminate].
  apply andb_prop in Eb as [E1 E2]. apply Z.leb_le in E1.
  apply Z.ltb_lt in E2. apply Z.eqb_neq in E0.
  apply existsb_exists in H as (t & Hin & Ht).
  apply in_map_iff in Hin as (i & <- & Hi). apply in_seq in Hi.
  simpl in Ht. apply Z.eqb_eq in Ht. exists T. repeat split; try lia.
Qed.

(** X6: a click on a thumbnail that is on the page makes it the one active
    thumbnail, and leaves the page count and the scale alone. *)
Theorem thumbnail_click_activates :
  forall st p, offered st (ClickThumbnail p) = true ->
    let st' := dispatch (ClickThumbnail p) st in
    pageNumber st' = p /\ active_thumbnails st' = [(p, true)] /\
    numPages st' = numPages st /\ scale st' = scale st.
Proof.
  intros st p Hoff st'.
  destruct (thumbnail_offered_inv st p Hoff) as (T & Hn & HT & Hp).
  split; [reflexivity | split; [|split; reflexivity]].
  rewrite (active_thumbnails_loaded st' T Hn HT).
  change (pageNumber st') with p.
  replace ((1 <=? p) && (p <=? T)) with true; [reflexivity|].
  symmetry. apply andb_true_intro. split; apply Z.leb_le; lia.
Qed.

Lemma thumbnail_click_activates_witness :
  active_thumbnails
    (dispatch (ClickThumbnail 4) (onDocumentLoadSuccess 5 initial))
  = [(4, true)].
Proof.
  destruct (thumbnail_click_activates (onDocumentLoadSuccess 5 initial) 4)
    as (_ & H & _); [reflexivity|].
  exact H.
Defined.

(** ** Sessions *)

Lemma onDocumentLoadSuccess_fields :
  forall n st,
    numPages (onDocumentLoadSuccess n st) = Some n /\
    pageNumber (onDocumentLoadSuccess n st) = pageNumber st /\
    scale (onDocumentLoadSuccess n st) = scale st.
Proof.
  intros n st. unfold onDocumentLoadSuccess.
  destruct (Z.eqb_spec (pageNumber st) 1) as [E | E]; simpl; auto.
Qed.

Lemma thumbnail_sidebar_not_thrown :
  forall T st, 1 <= T < 2 ^ 32 -> page_in_view T st ->
    thumbnail_sidebar st <> Threw.
Proof.
  intros T st HT [[Hn _] | [Hn _]].
  - unfold thumbnail_sidebar. rewrite Hn. discriminate.
  - rewrite (thumbnail_sidebar_loaded st T Hn HT). discriminate.
Qed.

Lemma offered_step_in_view :
  forall T ev st, 1 <= T -> offered st ev = true -> loads_report T ev ->
    page_in_view T st -> page_in_view T (dispatch ev st).
Proof.
  intros T ev st HT Hoff Hload Hview. destruct ev as [n| | |p| |].
  - cbn [loads_report] in Hload. subst n. right. cbn [dispatch].
    destruct (onDocumentLoadSuccess_fields T st) as (H1 & H2 & _).
    rewrite H1, H2.
    split; [reflexivity|]. destruct Hview as [[_ ->] | [_ Hp]]; lia.
  - destruct Hview as [[Hn _] | [Hn Hp]].
    + simpl in Hoff. unfold page_controls in Hoff. rewrite Hn in Hoff.
      discriminate.
    + right. cbn [dispatch]. split; [exact Hn|].
      rewrite pageNumber_goToPrevPage. lia.
  - destruct Hview as [[Hn _] | [Hn Hp]].
    + simpl in Hoff. unfold page_controls in Hoff. rewrite Hn in Hoff.
      discriminate.
    + right. cbn [dispatch]. split; [exact Hn|].
      rewrite pageNumber_goToNextPage, Hn. simpl. lia.
  - destruct (thumbnail_offered_inv st p Hoff) as (T' & Hn' & _ & Hp').
    destruct Hview as [[Hn _] | [Hn Hp]]; [congruence|].
    assert (T' = T) by congruence. subst T'.
    right. split; [exact Hn | exact Hp'].
  - exact Hview.
  - exact Hview.
Qed.

Lemma offered_step_scale :
  forall ev st, JS.binary64 (scale st) = true -> in_range (scale st) = true ->
    JS.binary64 (scale (dispatch ev st)) = true /\
    in_range (scale (dispatch ev st)) = true.
Proof.
  intros ev st Hv Hr. destruct ev as [n| | |p| |]; cbn [dispatch];
    try (split; assumption).
  - destruct (onDocumentLoadSuccess_fields n st) as (_ & _ & ->).
    split; assumption.
  - apply (zoom_click_in_range ClickZoomIn st); [left; reflexivity | | ];
      assumption.
  - apply (zoom_click_in_range ClickZoomOut st); [right; reflexivity | | ];
      assumption.
Qed.

Lemma offered_step_loaded :
  forall T ev st, 1 <= T -> offered st ev = true -> loads_report T ev ->
    numPages st = Some T -> 1 <= pageNumber st <= T ->
    numPages (dispatch ev st) = Some T /\
    1 <= pageNumber (dispatch ev st) <= T.
Proof.
  intros T ev st HT Hoff Hload Hn Hp.
  destruct (offered_step_in_view T ev st HT Hoff Hload) as [[Hnone _] | H];
    [right; auto | | exact H].
  exfalso. destruct ev as [n| | |p| |]; cbn [dispatch] in Hnone;
    try (change (numPages st = None) in Hnone; congruence).
  destruct (onDocumentLoadSuccess_fields n st) as (E & _). congruence.
Qed.

Lemma session_loaded :
  forall T evs st, 1 <= T -> session evs st = true ->
    Forall (loads_report T) evs ->
    numPages st = Some T -> 1 <= pageNumber st <= T ->
    numPages (run evs st) = Some T /\ 1 <= pageNumber (run evs st) <= T.
Proof.
  intros T evs. induction evs as [|ev evs IH]; intros st HT Hs Hall Hn Hp.
  - split; assumption.
  - cbn [session] in Hs. apply andb_prop in Hs as [Hoff Hs].
    inversion Hall as [|? ? Hev Hrest]; subst.
    destruct (offered_step_loaded T ev st HT Hoff Hev Hn Hp) as [Hn' Hp'].
    exact (IH (dispatch ev st) HT Hs Hrest Hn' Hp').
Qed.

Lemma session_after_load :
  forall T evs st, 1 <= T -> session evs st = true ->
    Forall (loads_report T) evs ->
    numPages st = None -> pageNumber st = 1 ->
    existsb is_load evs = true ->
    numPages (run evs st) = Some T /\ 1 <= pageNumber (run evs st) <= T.
Proof.
  intros T evs. induction evs as [|ev evs IH];
    intros st HT Hs Hall Hn Hp Hl; [discriminate Hl|].
  cbn [session] in Hs. apply andb_prop in Hs as [Hoff Hs].
  inversion Hall as [|? ? Hev Hrest]; subst.
  destruct (is_load ev) eqn:Eload.
  - destruct ev as [n| | |p| |]; try discriminate Eload.
    cbn [loads_report] in Hev. subst n.
    destruct (onDocumentLoadSuccess_fields T st) as (E1 & E2 & _).
    apply (session_loaded T evs (dispatch (DocumentLoaded T) st) HT Hs Hrest).
    + exact E1.
    + cbn [dispatch]. rewrite E2, Hp. lia.
  - cbn [existsb] in Hl. rewrite Eload in Hl. cbn [orb] in Hl.
    assert (Ht : JS.truthy (numPages st) = false) by (rewrite Hn; reflexivity).
    destruct (offered_unloaded st ev Ht Eload Hoff) as [-> | ->].
    + exact (IH (zoomIn st) HT Hs Hrest Hn Hp Hl).
    + exact (IH (zoomOut st) HT Hs Hrest Hn Hp Hl).
Qed.

Lemma events_keep_scale_in_range :
  forall evs st, JS.binary64 (scale st) = true -> in_range (scale st) = true ->
    JS.binary64 (scale (run evs st)) = true /\
    in_range (scale (run evs st)) = true.
Proof.
  induction evs as [|ev evs IH]; intros st Hv Hr; [split; assumption|].
  destruct (offered_step_scale ev st Hv Hr) as [Hv' Hr'].
  exact (IH (dispatch ev st) Hv' Hr').
Qed.

(** X7: in a session (every click is on a control that is on the page and
    not disabled) whose loads all report the same [T] pages, the view is
    always well formed: as long as no load has come, [numPages] is [null]
    and the page is 1; once a load has come, [numPages] is [T] and the
    page is among the [T]; the render of the sidebar never throws; and the
    scale is in [0.5, 3.0]. *)
Theorem session_keeps_view_well_formed :
  forall (T : Z) (evs : list Event),
    1 <= T < 2 ^ 32 -> session evs initial = true ->
    Forall (loads_report T) evs ->
    let st := run evs initial in
    (existsb is_load evs = false ->
     numPages st = None /\ pageNumber st = 1) /\
    (existsb is_load evs = true ->
     numPages st = Some T /\ 1 <= pageNumber st <= T) /\
    thumbnail_sidebar st <> Threw /\
    JS.binary64 (scale st) = true /\ in_range (scale st) = true.
Proof.
  intros T evs HT Hs Hall st.
  assert (Hbefore : existsb is_load evs = false ->
                    numPages st = None /\ pageNumber st = 1).
  { intros Hl. exact (session_unloaded evs initial eq_refl Hs Hl). }
  assert (Hafter : existsb is_load evs = true ->
                   numPages st = Some T /\ 1 <= pageNumber st <= T).
  { intros Hl. apply session_after_load; auto. lia. }
  split; [exact Hbefore | split; [exact Hafter | split]].
  - apply (thumbnail_sidebar_not_thrown T); [exact HT|].
    destruct (existsb is_load evs); [right | left]; auto.
  - apply events_keep_scale_in_range; reflexivity.
Qed.

Lemma session_keeps_view_well_formed_witness :
  let before := run [ClickZoomIn; ClickZoomOut] initial in
  let st := run [DocumentLoaded 5; ClickNext; DocumentLoaded 5; ClickZoomIn;
                 ClickThumbnail 5; ClickPrevious] initial in
  (numPages before = None /\ pageNumber before = 1) /\
  (numPages st = Some 5 /\ 1 <= pageNumber st <= 5) /\
  thumbnail_sidebar st <> Threw /\
  JS.binary64 (scale st) = true /\ in_range (scale st) = true.
Proof.
  intros before st.
  destruct (session_keeps_view_well_formed 5 [ClickZoomIn; ClickZoomOut])
    as (Hbefore & _); [lia | vm_compute; reflexivity | |].
  { repeat (apply Forall_cons; [exact I|]). apply Forall_nil. }
  destruct (session_keeps_view_well_formed 5
              [DocumentLoaded 5; ClickNext; DocumentLoaded 5; ClickZoomIn;
               ClickThumbnail 5; ClickPrevious])
    as (_ & Hafter & Hrest); [lia | vm_compute; reflexivity | |].
  { repeat (apply Forall_cons; [exact I || reflexivity|]). apply Forall_nil. }
  split; [apply Hbefore; reflexivity | split; [apply Hafter; reflexivity|]].
  exact Hrest.
Defined.

(** ** The zoom buttons *)

Lemma units_inj :
  forall x y : JS.number, normal x = true -> normal y = true ->
    units x = units y -> x = y.
Proof.
  intros x y Hx Hy Hu. pose proof (compare_units x y Hx Hy) as Hc.
  rewrite Hu, Z.compare_refl in Hc.
  destruct (normal_inv x Hx) as (m1 & e1 & -> & _).
  destruct (normal_inv y Hy) as (m2 & e2 & -> & _).
  cbn [SFcompare] in Hc. injection Hc as Hc.
  destruct (Z.compare_spec e1 e2) as [-> | _ | _]; try discriminate.
  change (Pos.compare_cont Eq m1 m2) with (Pos.compare m1 m2) in Hc.
  apply Pos.compare_eq in Hc. subst. reflexivity.
Qed.

Lemma setScale_with_same :
  forall f st, setScale_with f st = st <-> f (scale st) = scale st.
Proof.
  intros f [np p s]. unfold setScale_with. simpl. split.
  - intros H. injection H. auto.
  - intros ->. reflexivity.
Qed.

(** What [zoomIn] and [zoomOut] store, in units: the rounded sum cut at
    3.0, the rounded difference cut at 0.5. *)
Lemma zoomIn_updater_units :
  forall s : JS.number, normal s = true -> 2 ^ 54 <= units s <= 3 * 2 ^ 55 ->
    normal (zoomIn_updater s) = true /\
    2 ^ 54 <= units (zoomIn_updater s) <= 3 * 2 ^ 55 /\
    Z.min (3 * 2 ^ 55) (units s + units JS.lit_0_2 - 8)
    <= units (zoomIn_updater s).
Proof.
  intros s Hn Hu.
  destruct (zoomIn_units s Hn Hu) as (_ & Herr & Hc & Hs' & Hn' & Hu').
  repeat split; try assumption; try lia.
  rewrite Hs', Hc.
  destruct (Z.ltb_spec (3 * 2 ^ 55) (units (JS.add s JS.lit_0_2)));
    rewrite ?units_lit_3_0; lia.
Qed.

Lemma zoomOut_updater_units :
  forall s : JS.number, normal s = true -> 2 ^ 54 <= units s <= 3 * 2 ^ 55 ->
    normal (zoomOut_updater s) = true /\
    2 ^ 54 <= units (zoomOut_updater s) <= 3 * 2 ^ 55 /\
    units (zoomOut_updater s)
    <= Z.max (2 ^ 54) (units s - units JS.lit_0_2 + 8).
Proof.
  intros s Hn Hu.
  destruct (zoomOut_units s Hn Hu) as (_ & Herr & Hc & Hs' & Hn' & Hu').
  repeat split; try assumption; try lia.
  rewrite Hs', Hc.
  destruct (Z.ltb_spec (units (JS.sub s JS.lit_0_2)) (2 ^ 54));
    rewrite ?units_lit_0_5; lia.
Qed.

(** X8: for a scale in [0.5, 3.0], Zoom In is disabled exactly when
    [zoomIn] would change nothing (the scale is 3.0) and Zoom Out exactly
    when [zoomOut] would (the scale is 0.5); a click on a button that is
    not disabled makes the scale strictly larger, respectively smaller. *)
Theorem zoom_buttons_disabled_iff_no_op :
  forall st : ViewState,
    JS.binary64 (scale st) = true -> in_range (scale st) = true ->
    (zoom_in_disabled (zoom_controls st) = true <-> zoomIn st = st) /\
    (zoom_out_disabled (zoom_controls st) = true <-> zoomOut st = st) /\
    (zoom_in_disabled (zoom_controls st) = true <-> scale st = JS.lit_3_0) /\
    (zoom_out_disabled (zoom_controls st) = true <-> scale st = JS.lit_0_5) /\
    (zoom_in_disabled (zoom_controls st) = false ->
     JS.lt (scale st) (scale (zoomIn st)) = true) /\
    (zoom_out_disabled (zoom_controls st) = false ->
     JS.lt (scale (zoomOut st)) (scale st) = true).
Proof.
  intros st Hv Hr. destruct (in_range_normal _ Hv Hr) as [Hn Hu].
  destruct (zoomIn_updater_units _ Hn Hu) as (Hni & Hui & Hlo).
  destruct (zoomOut_updater_units _ Hn Hu) as (Hno & Huo & Hhi).
  rewrite units_lit_0_2 in Hlo, Hhi.
  unfold zoomIn, zoomOut. rewrite !setScale_with_same.
  cbn [zoom_controls zoom_in_disabled zoom_out_disabled scale setScale_with].
  unfold JS.ge. rewrite !le_units by (try exact Hn; reflexivity).
  rewrite units_lit_3_0, units_lit_0_5.
  rewrite !lt_units by assumption.
  assert (H3 : scale st = JS.lit_3_0 <-> units (scale st) = 3 * 2 ^ 55).
  { split; [intros ->; reflexivity|]. intros E.
    apply units_inj; [exact Hn | reflexivity | exact E]. }
  assert (H5 : scale st = JS.lit_0_5 <-> units (scale st) = 2 ^ 54).
  { split; [intros ->; reflexivity|]. intros E.
    apply units_inj; [exact Hn | reflexivity | exact E]. }
  split; [|split; [|split; [|split; [|split]]]].
  - split; intros H.
    + apply Z.leb_le in H. apply units_inj; [exact Hni | exact Hn | lia].
    + apply Z.leb_le. rewrite H in Hlo. lia.
  - split; intros H.
    + apply Z.leb_le in H. apply units_inj; [exact Hno | exact Hn | lia].
    + apply Z.leb_le. rewrite H in Hhi. lia.
  - rewrite H3. rewrite Z.leb_le. lia.
  - rewrite H5. rewrite Z.leb_le. lia.
  - intros H. apply Z.leb_gt in H. apply Z.ltb_lt. lia.
  - intros H. apply Z.leb_gt in H. apply Z.ltb_lt. lia.
Qed.

Lemma zoom_buttons_disabled_iff_no_op_witness :
  let top := {| numPages := None; pageNumber := 1; scale := JS.lit_3_0 |} in
  zoomIn top = top /\ JS.lt (scale initial) (scale (zoomIn initial)) = true /\
  JS.lt (scale (zoomOut initial)) (scale initial) = true.
Proof.
  intros top.
  destruct (zoom_buttons_disabled_iff_no_op top) as (Hin & _);
    [reflexivity | reflexivity |].
  destruct (zoom_buttons_disabled_iff_no_op initial)
    as (_ & _ & _ & _ & Hup & Hdown); [reflexivity | reflexivity |].
  split; [apply Hin; reflexivity | split; [apply Hup | apply Hdown]];
    reflexivity.
Defined.

Lemma scale_iter_zoomIn :
  forall n st, scale (Nat.iter n zoomIn st)
               = Nat.iter n zoomIn_updater (scale st).
Proof.
  induction n as [|n IH]; intros st; [reflexivity|].
  rewrite !Nat.iter_succ, scale_zoomIn. f_equal. apply IH.
Qed.

Lemma scale_iter_zoomOut :
  forall n st, scale (Nat.iter n zoomOut st)
               = Nat.iter n zoomOut_updater (scale st).
Proof.
  induction n as [|n IH]; intros st; [reflexivity|].
  rewrite !Nat.iter_succ, scale_zoomOut. f_equal. apply IH.
Qed.

Lemma iter_zoomIn_updater_units :
  forall (n : nat) (s : JS.number),
    normal s = true -> 2 ^ 54 <= units s <= 3 * 2 ^ 55 ->
    normal (Nat.iter n zoomIn_updater s) = true /\
    2 ^ 54 <= units (Nat.iter n zoomIn_updater s) <= 3 * 2 ^ 55 /\
    Z.min (3 * 2 ^ 55) (units s + Z.of_nat n * (units JS.lit_0_2 - 8))
    <= units (Nat.iter n zoomIn_updater s).
Proof.
  intros n s Hn Hu. induction n as [|n (IH1 & IH2 & IH3)].
  - cbn [Nat.iter nat_rect]. repeat split; try assumption; lia.
  - rewrite Nat.iter_succ.
    destruct (zoomIn_updater_units _ IH1 IH2) as (H1 & H2 & H3).
    repeat split; try assumption; try lia.
    rewrite units_lit_0_2 in *. lia.
Qed.

Lemma iter_zoomOut_updater_units :
  forall (n : nat) (s : JS.number),
    normal s = true -> 2 ^ 54 <= units s <= 3 * 2 ^ 55 ->
    normal (Nat.iter n zoomOut_updater s) = true /\
    2 ^ 54 <= units (Nat.iter n zoomOut_updater s) <= 3 * 2 ^ 55 /\
    units (Nat.iter n zoomOut_updater s)
    <= Z.max (2 ^ 54) (units s - Z.of_nat n * (units JS.lit_0_2 - 8)).
Proof.
  intros n s Hn Hu. induction n as [|n (IH1 & IH2 & IH3)].
  - cbn [Nat.iter nat_rect]. repeat split; try assumption; lia.
  - rewrite Nat.iter_succ.
    destruct (zoomOut_updater_units _ IH1 IH2) as (H1 & H2 & H3).
    repeat split; try assumption; try lia.
    rewrite units_lit_0_2 in *. lia.
Qed.

(** X9: from any scale in [0.5, 3.0], thirteen calls of [zoomIn] end at
    exactly 3.0 and thirteen calls of [zoomOut] at exactly 0.5, where the
    button is disabled; twelve are not always enough (from 0.5 they end
    below 3.0). *)
Theorem thirteen_zooms_reach_the_bound :
  forall st : ViewState,
    JS.binary64 (scale st) = true -> in_range (scale st) = true ->
    scale (Nat.iter 13 zoomIn st) = JS.lit_3_0 /\
    zoom_in_disabled (zoom_controls (Nat.iter 13 zoomIn st)) = true /\
    scale (Nat.iter 13 zoomOut st) = JS.lit_0_5 /\
    zoom_out_disabled (zoom_controls (Nat.iter 13 zoomOut st)) = true /\
    (scale st = JS.lit_0_5 ->
     JS.lt (scale (Nat.iter 12 zoomIn st)) JS.lit_3_0 = true) /\
    (scale st = JS.lit_3_0 ->
     JS.lt JS.lit_0_5 (scale (Nat.iter 12 zoomOut st)) = true).
Proof.
  intros st Hv Hr. destruct (in_range_normal _ Hv Hr) as [Hn Hu].
  assert (Hin : scale (Nat.iter 13 zoomIn st) = JS.lit_3_0).
  { rewrite scale_iter_zoomIn.
    destruct (iter_zoomIn_updater_units 13 _ Hn Hu) as (H1 & H2 & H3).
    apply units_inj; [exact H1 | reflexivity |].
    rewrite units_lit_0_2 in H3. rewrite units_lit_3_0.
    change (Z.of_nat 13) with 13 in H3. lia. }
  assert (Hout : scale (Nat.iter 13 zoomOut st) = JS.lit_0_5).
  { rewrite scale_iter_zoomOut.
    destruct (iter_zoomOut_updater_units 13 _ Hn Hu) as (H1 & H2 & H3).
    apply units_inj; [exact H1 | reflexivity |].
    rewrite units_lit_0_2 in H3. rewrite units_lit_0_5.
    change (Z.of_nat 13) with 13 in H3. lia. }
  split; [exact Hin | split; [|split; [exact Hout | split; [|split]]]].
  - cbn [zoom_controls zoom_in_disabled]. rewrite Hin. reflexivity.
  - cbn [zoom_controls zoom_out_disabled]. rewrite Hout. reflexivity.
  - intros E. rewrite scale_iter_zoomIn, E. vm_compute. reflexivity.
  - intros E. rewrite scale_iter_zoomOut, E. vm_compute. reflexivity.
Qed.

Lemma thirteen_zooms_reach_the_bound_witness :
  let low := {| numPages := None; pageNumber := 1; scale := JS.lit_0_5 |} in
  scale (Nat.iter 13 zoomIn low) = JS.lit_3_0 /\
  scale (Nat.iter 13 zoomOut initial) = JS.lit_0_5 /\
  JS.lt (scale (Nat.iter 12 zoomIn low)) JS.lit_3_0 = true.
Proof.
  intros low.
  destruct (thirteen_zooms_reach_the_bound low) as (H1 & _ & _ & _ & H5 & _);
    [reflexivity | reflexivity |].
  destruct (thirteen_zooms_reach_the_bound initial) as (_ & _ & H3 & _);
    [reflexivity | reflexivity |].
  split; [exact H1 | split; [exact H3 | apply H5; reflexivity]].
Defined.

(** ** The percentage *)

Lemma zoom_percentage_of_scale :
  forall st, zoom_percentage st
             = zoom_percentage
                 {| numPages := None; pageNumber := 1; scale := scale st |}.
Proof. reflexivity. Qed.

(** On each of [zoom_scales], the percentage shown is that of a multiple of
    ten from 50 to 300, and the two updaters move it by 20 within these
    bounds. *)
Lemma zoom_scales_percentages :
  forallb
    (fun s =>
       let shows (s : JS.number) (p : Z) :=
         match zoom_percentage
                 {| numPages := None; pageNumber := 1; scale := s |} with
         | Some text => String.eqb text (percent_text p)
         | None => false
         end in
       match JSFormat.mul s JSFormat.lit_100 with
       | S754_finite false m e =>
           let p := JSFormat.nearest_integer m e in
           (50 <=? p) && (p <=? 300) && (p mod 10 =? 0) && shows s p
           && shows (zoomIn_updater s) (Z.min (p + 20) 300)
           && shows (zoomOut_updater s) (Z.max (p - 20) 50)
       | _ => false
       end)
    zoom_scales
  = true.
Proof. vm_compute. reflexivity. Qed.

(** X10: whatever zoom buttons have been clicked since the start, the
    percentage between them reads a multiple of ten from 50% to 300% (the
    rounding of the scale never shows); [zoomIn] raises what it reads by
    20, up to 300%, and [zoomOut] lowers it by 20, down to 50%. *)
Theorem zoom_percentage_steps :
  forall evs : list Event, Forall zoom_click evs ->
    let st := run evs initial in
    exists p : Z,
      50 <= p <= 300 /\ p mod 10 = 0 /\
      zoom_percentage st = Some (percent_text p) /\
      zoom_percentage (zoomIn st)
      = Some (percent_text (Z.min (p + 20) 300)) /\
      zoom_percentage (zoomOut st)
      = Some (percent_text (Z.max (p - 20) 50)).
Proof.
  intros evs Hall st.
  assert (Hin : In (scale st) zoom_scales).
  { apply zoom_clicks_reach_zoom_scales; [exact Hall|].
    apply scale_in_In. apply zoom_scales_closed. }
  pose proof zoom_scales_percentages as H. rewrite forallb_forall in H.
  specialize (H _ Hin). cbv zeta in H.
  rewrite (zoom_percentage_of_scale st).
  rewrite (zoom_percentage_of_scale (zoomIn st)), scale_zoomIn.
  rewrite (zoom_percentage_of_scale (zoomOut st)), scale_zoomOut.
  destruct (JSFormat.mul (scale st) JSFormat.lit_100)
    as [sg|sg| |[|] m e]; try discriminate.
  exists (JSFormat.nearest_integer m e).
  repeat (apply andb_prop in H as [H ?]).
  repeat match goal with
         | Hs : match ?o with Some _ => _ | None => false end = true |- _ =>
             destruct o as [text|] eqn:?; [apply String.eqb_eq in Hs; subst text
                                          | discriminate Hs]
         end.
  apply Z.leb_le in H.
  repeat match goal with
         | Hb : (_ <=? _) = true |- _ => apply Z.leb_le in Hb
         | Hb : (_ =? _) = true |- _ => apply Z.eqb_eq in Hb
         end.
  repeat split; try assumption; try reflexivity.
Qed.

Lemma zoom_percentage_steps_witness :
  exists p : Z,
    50 <= p <= 300 /\ p mod 10 = 0 /\
    zoom_percentage (run [ClickZoomIn; ClickZoomIn; ClickZoomIn] initial)
    = Some (percent_text p).
Proof.
  destruct (zoom_percentage_steps [ClickZoomIn; ClickZoomIn; ClickZoomIn])
    as (p & H1 & H2 & H3 & _).
  { repeat (apply Forall_cons; [unfold zoom_click; auto|]). apply Forall_nil. }
  exists p. split; [exact H1 | split; [exact H2 | exact H3]].
Defined.

(** ** The pagination-only versions *)

(** X11: in the versions with one [Document], where every load puts the
    page back to 1, a session keeps the page among the pages whatever page
    counts (of at least one page) the loads report, and differing ones
    too: before the first load the page is 1, after it the page is between
    1 and the count of the last load. *)
Theorem paginated_session_keeps_page_in_range :
  forall evs : list PaginatedApp.Event,
    PaginatedApp.session evs PaginatedApp.initial = true ->
    Forall PaginatedApp.loads_a_page evs ->
    let st := PaginatedApp.run evs PaginatedApp.initial in
    (PaginatedApp.numPages st = None /\ PaginatedApp.pageNumber st = 1) \/
    (exists T, PaginatedApp.numPages st = Some T /\
               1 <= PaginatedApp.pageNumber st <= T).
Proof.
  intros evs Hs Hall st.
  assert (Hgen : forall evs st0,
             PaginatedApp.session evs st0 = true ->
             Forall PaginatedApp.loads_a_page evs ->
             ((PaginatedApp.numPages st0 = None /\
               PaginatedApp.pageNumber st0 = 1) \/
              (exists T, PaginatedApp.numPages st0 = Some T /\
                         1 <= PaginatedApp.pageNumber st0 <= T)) ->
             (PaginatedApp.numPages (PaginatedApp.run evs st0) = None /\
              PaginatedApp.pageNumber (PaginatedApp.run evs st0) = 1) \/
             (exists T,
                 PaginatedApp.numPages (PaginatedApp.run evs st0) = Some T /\
                 1 <= PaginatedApp.pageNumber (PaginatedApp.run evs st0)
                 <= T)).
  { clear. induction evs as [|ev evs IH]; intros st0 Hs Hall Hinv;
      [exact Hinv|].
    cbn [PaginatedApp.session] in Hs. apply andb_prop in Hs as [Hoff Hs].
    inversion Hall as [|? ? Hev Hrest]; subst.
    apply (IH (PaginatedApp.dispatch ev st0) Hs Hrest).
    destruct ev as [n| |]; cbn [PaginatedApp.dispatch].
    - right. exists n. cbn [PaginatedApp.loads_a_page] in Hev.
      cbn. split; [reflexivity | lia].
    - destruct Hinv as [[Hn _] | (T & Hn & Hp)].
      + cbn in Hoff. unfold PaginatedApp.page_controls in Hoff.
        rewrite Hn in Hoff. discriminate.
      + right. exists T. cbn. split; [exact Hn | lia].
    - destruct Hinv as [[Hn _] | (T & Hn & Hp)].
      + cbn in Hoff. unfold PaginatedApp.page_controls in Hoff.
        rewrite Hn in Hoff. discriminate.
      + right. exists T. cbn. rewrite Hn. cbn. split; [reflexivity | lia]. }
  apply (Hgen evs PaginatedApp.initial Hs Hall). left. split; reflexivity.
Qed.

Lemma paginated_session_keeps_page_in_range_witness :
  let st := PaginatedApp.run
              [PaginatedApp.DocumentLoaded 5; PaginatedApp.ClickNext;
               PaginatedApp.ClickNext; PaginatedApp.DocumentLoaded 2;
               PaginatedApp.ClickNext]
              PaginatedApp.initial in
  (PaginatedApp.numPages st = None /\ PaginatedApp.pageNumber st = 1) \/
  (exists T, PaginatedApp.numPages st = Some T /\
             1 <= PaginatedApp.pageNumber st <= T).
Proof.
  apply (paginated_session_keeps_page_in_range
           [PaginatedApp.DocumentLoaded 5; PaginatedApp.ClickNext;
            PaginatedApp.ClickNext; PaginatedApp.DocumentLoaded 2;
            PaginatedApp.ClickNext]).
  - reflexivity.
  - repeat (apply Forall_cons; [cbn; try exact I; lia|]). apply Forall_nil.
Defined.
